(** * Client side of the safelock advisory lock (os/lock.py)

    A shallow embedding of [connect_to_server], [try_to_lock], [lock],
    [try_to_unlock], [unlock], [get_deadline] and the [locked] context
    manager, with the theorems that settle the behaviour of the retry
    loops, the response checks and the scoped helper.

    The network, the clock and the process identity are an explicit
    [world]; the effects of the code (log lines, sleeps, requests sent)
    are recorded in a trace carried by a small state and exception
    monad, which also counts the sockets opened and the readings of the
    clock. *)

From Stdlib Require Import ZArith String Ascii List Lia.
From stdpp Require Import base gmap strings pretty.

Local Open Scope string_scope.
Local Open Scope Z_scope.

(** ** Python values found in requests and responses *)

Inductive atom : Type :=
  | ANone
  | ABool (b : bool)
  | AInt (z : Z)
  | AStr (s : string).

(** The result of [eval(data.decode())]: a dict with string keys, or
    something that is not subscriptable by a string. *)
Inductive parsed : Type :=
  | PDict (d : gmap string atom)
  | PAtom (a : atom).

(** Python truth value of an atom, as tested by [if], [and], [not]. *)
Definition truthy (a : atom) : bool :=
  match a with
  | ANone => false
  | ABool b => b
  | AInt z => negb (z =? 0)
  | AStr s => negb (String.eqb s EmptyString)
  end.

(** Python [==] on atoms ([True == 1] and [False == 0] hold in Python). *)
Definition py_eq (a b : atom) : bool :=
  match a, b with
  | ANone, ANone => true
  | ABool x, ABool y => Bool.eqb x y
  | ABool x, AInt y => Z.b2z x =? y
  | AInt x, ABool y => x =? Z.b2z y
  | AInt x, AInt y => x =? y
  | AStr x, AStr y => String.eqb x y
  | _, _ => false
  end.

(** [str(x)], which is what ['{}'.format(x)] inserts. *)
Definition py_str (a : atom) : string :=
  match a with
  | ANone => "None"
  | ABool true => "True"
  | ABool false => "False"
  | AInt z => pretty z
  | AStr s => s
  end.

(** Python [sub in s] on strings. *)
Fixpoint contains (sub s : string) : bool :=
  String.prefix sub s
  || match s with
     | EmptyString => false
     | String _ t => contains sub t
     end.

(** ** Exceptions *)

Inductive exn : Type :=
  | LockTimeout (msg : string)
  | LockFailed (msg : string)
  | TimeoutError (msg : string)
  | KeyError (key : string)
  | TypeError
  | ValueError (msg : string)
  | OverflowError
  | NameError (name : string)
  | OtherError (name : string).

(** Errors a socket call can raise besides the two the code names
    ([ConnectionRefusedError] on connect, [BrokenPipeError] on send). *)
Inductive sockerr : Type :=
  | ETimedOut (msg : string)
  | EOther (name : string).

Definition exn_of_sockerr (e : sockerr) : exn :=
  match e with
  | ETimedOut m => TimeoutError m
  | EOther n => OtherError n
  end.

(** What one socket meets: the result of [connect], of [sendall], and
    of [recv] followed by [eval(data.decode())]. *)
Inductive connect_result : Type :=
  | Connected
  | Refused
  | ConnectError (e : sockerr).

Inductive send_result : Type :=
  | Sent
  | BrokenPipe (msg : string)
  | SendError (e : sockerr).

Inductive recv_result : Type :=
  | RecvError (e : sockerr)
  | Garbage (e : exn)
  | Value (p : parsed).

Record sock : Type := Sock {
  on_connect : connect_result;
  on_send : send_result;
  on_recv : recv_result
}.

(** The [timeout] argument: [None], a [timedelta], a number of seconds
    (both in microseconds, the resolution of [timedelta]), or a value of
    another type, of which only the type's name matters. *)
Inductive timeout : Type :=
  | TNone
  | TDelta (us : Z)
  | TSeconds (us : Z)
  | TOther (type_name : string).

(** ** Module constants

    [DEBUGGING] is [False] in the module, so the branches it guards,
    which only log, never run and are left out. The counter
    [loop_count] of [lock] is never read and is left out too. *)

Definition DEBUGGING : bool := false.

Definition SAFELOCK_HOST : string := "localhost".
Definition SAFELOCK_PORT : Z := 8674.
Definition MAX_PACKET_SIZE : Z := 1024.

Definition ACTION_KEY : string := "action".
Definition LOCKNAME_KEY : string := "lockname".
Definition NONCE_KEY : string := "nonce".
Definition PID_KEY : string := "pid".
Definition OK_KEY : string := "ok".
Definition MESSAGE_KEY : string := "message".
Definition LOCK_ACTION : string := "lock".
Definition UNLOCK_ACTION : string := "unlock".

Definition dquote : string := String (ascii_of_nat 34) EmptyString.

(** [REJECTED_LOCK_MESSAGE.format(lockname, why)] *)
Definition REJECTED_LOCK_MESSAGE (lockname why : string) : string :=
  "safelock rejected " +:+ dquote +:+ lockname +:+ dquote
  +:+ " lock request: " +:+ why.

(** [REJECTED_UNLOCK_MESSAGE.format(lockname, why)] *)
Definition REJECTED_UNLOCK_MESSAGE (lockname why : string) : string :=
  "safelock rejected " +:+ dquote +:+ lockname +:+ dquote
  +:+ " unlock request: " +:+ why.

Definition WHY_UNKNOWN : string := "safelock did not say why".

Definition WRONG_NONCE : string := "Wrong nonce".

Definition server_address : string :=
  SAFELOCK_HOST +:+ ":" +:+ pretty SAFELOCK_PORT.

Definition NO_SERVER_MESSAGE : string :=
  "Requires safelock package available on PyPI. No lock server at "
  +:+ server_address.

Definition NO_SERVER_WARNING (server_required : bool) : string :=
  "No lock server at " +:+ server_address
  +:+ ", but server_required=" +:+ py_str (ABool server_required).

Definition PROBABLY_DOWN : string := "probably safelock server down".

(** ** The world, the trace and the monad *)

(** Everything outside the process: what each successive socket meets,
    what each successive reading of the clock shows (microseconds), the
    process id and the name [caller_id] derives from the call site. *)
Record world : Type := World {
  net_at : nat -> sock;
  now_at : nat -> Z;
  getpid : Z;
  caller_id : string
}.

Inductive level : Type := LDebug | LWarning | LError.

Inductive call : Type := CallLock | CallBody | CallUnlock.

Inductive event : Type :=
  | EvLog (lv : level) (msg : string)
  | EvTraceback (e : exn)
  | EvSleep
  | EvSend (req : gmap string atom)
  | EvCall (c : call).

(** [conns]: sockets opened so far; [ticks]: clock readings so far;
    [trace]: the effects so far, most recent first. *)
Record state : Type := State {
  conns : nat;
  ticks : nat;
  trace : list event
}.

Definition initial : state := State 0 0 [].

(** A call returns, raises, or is still looping when the fuel of the
    model runs out. *)
Inductive outcome (A : Type) : Type :=
  | Returns (a : A)
  | Raises (e : exn)
  | Loops.

Arguments Returns {A} a.
Arguments Raises {A} e.
Arguments Loops {A}.

Definition M (A : Type) : Type := state -> outcome A * state.

#[export] Instance M_ret : MRet M := fun A a s => (Returns a, s).

#[export] Instance M_bind : MBind M := fun A B f m s =>
  match m s with
  | (Returns a, s') => f a s'
  | (Raises e, s') => (Raises e, s')
  | (Loops, s') => (Loops, s')
  end.

Definition raise {A : Type} (e : exn) : M A := fun s => (Raises e, s).

Definition loops {A : Type} : M A := fun s => (Loops, s).

(** [try: m  except: h]; a handler that re-raises is [raise]. *)
Definition try_except {A : Type} (m : M A) (h : exn -> M A) : M A := fun s =>
  match m s with
  | (Raises e, s') => h e s'
  | r => r
  end.

(** [try: m  finally: f] *)
Definition try_finally {A : Type} (m : M A) (f : M unit) : M A := fun s =>
  match m s with
  | (Returns a, s') => (_ ← f; mret a) s'
  | (Raises e, s') => (_ ← f; raise e) s'
  | (Loops, s') => (Loops, s')
  end.

Definition emit (ev : event) : M unit := fun s =>
  (Returns tt, State (conns s) (ticks s) (ev :: trace s)).

Definition log (lv : level) (msg : string) : M unit := emit (EvLog lv msg).

(** [log(format_exc())] and [log.exception()]: the traceback of the
    exception being handled, at debug level. *)
Definition log_traceback (e : exn) : M unit := emit (EvTraceback e).

(** [sleep(0.1)] *)
Definition sleep : M unit := emit EvSleep.

Definition when (b : bool) (m : M unit) : M unit := if b then m else mret tt.

(** ** The protocol codec and the retry loops *)

Section Client.

Variable w : world.

(** [socket.socket(...)]: the next socket of the world. *)
Definition open_socket : M sock := fun s =>
  (Returns (net_at w (conns s)), State (S (conns s)) (ticks s) (trace s)).

(** [now()] *)
Definition now : M Z := fun s =>
  (Returns (now_at w (ticks s)), State (conns s) (S (ticks s)) (trace s)).

(** [connect_to_server(sock, server_required)] *)
Definition connect_to_server (sk : sock) (server_required : bool) : M bool :=
  match on_connect sk with
  | Refused =>
      if server_required then
        log LError NO_SERVER_MESSAGE;;
        raise (LockFailed NO_SERVER_MESSAGE)
      else
        log LWarning (NO_SERVER_WARNING server_required);;
        mret false
  | ConnectError e => raise (exn_of_sockerr e)
  | Connected => mret true
  end.

(** [response[key]] *)
Definition getitem (response : parsed) (key : string) : M atom :=
  match response with
  | PDict d =>
      match d !! key with
      | Some v => mret v
      | None => raise (KeyError key)
      end
  | PAtom _ => raise TypeError
  end.

(** [key in response], reached only after a [response[...]] succeeded *)
Definition has_key (response : parsed) (key : string) : bool :=
  match response with
  | PDict d => bool_decide (is_Some (d !! key))
  | PAtom _ => false
  end.

Definition lock_request (lockname : string) (pid : Z) : gmap string atom :=
  <[ACTION_KEY := AStr LOCK_ACTION]>
    (<[LOCKNAME_KEY := AStr lockname]>
       (<[PID_KEY := AInt pid]> ∅)).

Definition unlock_request (lockname : string) (nonce : atom) (pid : Z)
  : gmap string atom :=
  <[ACTION_KEY := AStr UNLOCK_ACTION]>
    (<[LOCKNAME_KEY := AStr lockname]>
       (<[NONCE_KEY := nonce]>
          (<[PID_KEY := AInt pid]> ∅))).

(** The [else] branch of [try_to_lock] after a reply was parsed. *)
Definition check_lock_response (lockname : string) (response : parsed)
  : M (atom * atom) :=
  ok ← getitem response OK_KEY;
  is_locked ←
    (if truthy ok then
       action ← getitem response ACTION_KEY;
       if py_eq action (AStr LOCK_ACTION) then
         name ← getitem response LOCKNAME_KEY;
         mret (ABool (py_eq name (AStr lockname)))
       else mret (ABool false)
     else mret ok) : M atom;
  if truthy is_locked then
    nonce ← getitem response NONCE_KEY;
    mret (is_locked, nonce)
  else
    message ←
      (if has_key response MESSAGE_KEY then
         why ← getitem response MESSAGE_KEY;
         mret (REJECTED_LOCK_MESSAGE lockname (py_str why))
       else mret (REJECTED_LOCK_MESSAGE lockname WHY_UNKNOWN)) : M string;
    raise (LockFailed message).

(** [try_to_lock(lockname, pid, server_required)] *)
Definition try_to_lock (lockname : string) (pid : Z) (server_required : bool)
  : M (atom * atom) :=
  sk ← open_socket;
  connected ← connect_to_server sk server_required;
  if connected : bool then
    match on_send sk with
    | BrokenPipe msg =>
        log LWarning msg;;
        raise (LockFailed PROBABLY_DOWN)
    | SendError e => raise (exn_of_sockerr e)
    | Sent =>
        emit (EvSend (lock_request lockname pid));;
        match on_recv sk with
        | RecvError e => raise (exn_of_sockerr e)
        | Garbage e =>
            log_traceback e;;
            mret (ABool false, ANone)
        | Value response => check_lock_response lockname response
        end
    end
  else mret (ABool false, ANone).

(** The [else] branch of [try_to_unlock] after a reply was parsed;
    the value is the new [is_locked]. *)
Definition check_unlock_response (lockname : string) (nonce : atom)
    (response : parsed) : M bool :=
  ok ← getitem response OK_KEY;
  accepted ←
    (if truthy ok then
       action ← getitem response ACTION_KEY;
       if py_eq action (AStr UNLOCK_ACTION) then
         echoed ← getitem response NONCE_KEY;
         mret (py_eq echoed nonce)
       else mret false
     else mret false);
  if accepted : bool then mret false
  else
    message ←
      (if has_key response MESSAGE_KEY then
         why ← getitem response MESSAGE_KEY;
         mret (REJECTED_UNLOCK_MESSAGE lockname (py_str why))
       else mret (REJECTED_UNLOCK_MESSAGE lockname WHY_UNKNOWN)) : M string;
    raise (LockFailed message).

(** [try_to_unlock(lockname, nonce, pid, server_required)]; the value
    is [is_locked]: [true] while the lock is still held. *)
Definition try_to_unlock (lockname : string) (nonce : atom) (pid : Z)
    (server_required : bool) : M bool :=
  sk ← open_socket;
  connected ← connect_to_server sk server_required;
  if connected : bool then
    match on_send sk with
    | BrokenPipe msg =>
        log LWarning msg;;
        raise (LockFailed PROBABLY_DOWN)
    | SendError e => raise (exn_of_sockerr e)
    | Sent =>
        emit (EvSend (unlock_request lockname nonce pid));;
        match on_recv sk with
        | RecvError e => raise (exn_of_sockerr e)
        | Garbage e =>
            log_traceback e;;
            mret false
        | Value response => check_unlock_response lockname nonce response
        end
    end
  else mret true.

(** [datetime.max] and the range of [timedelta], in microseconds. *)
Definition DATETIME_MAX : Z := 315537897599999999.
Definition TIMEDELTA_MAX : Z := 86399999999999999999.
Definition TIMEDELTA_MIN : Z := -86399999913600000000.

(** [timedelta(seconds=timeout)] *)
Definition timedelta_seconds (us : Z) : M Z :=
  if (TIMEDELTA_MIN <=? us) && (us <=? TIMEDELTA_MAX) then mret us
  else raise OverflowError.

(** [datetime + timedelta] *)
Definition datetime_add (t delta : Z) : M Z :=
  if (0 <=? t + delta) && (t + delta <=? DATETIME_MAX) then mret (t + delta)
  else raise OverflowError.

Definition BAD_TIMEOUT (type_name : string) : string :=
  "timeout must be one of (seconds, timedelta, None), not " +:+ type_name.

(** [get_deadline(timeout)] *)
Definition get_deadline (tmo : timeout) : M (option Z) :=
  match tmo with
  | TNone => mret None
  | TDelta us =>
      t ← now;
      deadline ← datetime_add t us;
      mret (Some deadline)
  | TSeconds us =>
      t ← now;
      delta ← timedelta_seconds us;
      deadline ← datetime_add t delta;
      mret (Some deadline)
  | TOther type_name => raise (ValueError (BAD_TIMEOUT type_name))
  end.

(** [message != last_warning] *)
Definition is_new_warning (message : string) (last_warning : option string)
  : bool :=
  match last_warning with
  | Some m => negb (String.eqb message m)
  | None => true
  end.

(** The [try] statement in the loop of [lock]; the value is the new
    [is_locked], [nonce] and [last_warning]. *)
Definition lock_attempt (lockname : string) (pid : Z) (server_required : bool)
    (is_locked nonce : atom) (last_warning : option string)
  : M (atom * atom * option string) :=
  try_except
    (r ← try_to_lock lockname pid server_required;
     mret (r.1, r.2, last_warning))
    (fun e =>
       match e with
       | TimeoutError m =>
           log LDebug m;;
           mret (is_locked, nonce, last_warning)
       | LockFailed m =>
           if contains WRONG_NONCE m then raise e
           else if is_new_warning m last_warning then
             log LDebug m;;
             mret (is_locked, nonce, Some m)
           else mret (is_locked, nonce, last_warning)
       | _ =>
           log_traceback e;;
           raise e
       end).

Definition LOCK_TIMED_OUT (lockname : string) : string :=
  "lock timed out: " +:+ lockname.

(** [if deadline and now() > deadline: ...] in [lock] *)
Definition check_lock_deadline (lockname : string) (deadline : option Z)
  : M unit :=
  match deadline with
  | None => mret tt
  | Some d =>
      t ← now;
      if d <? t then
        log LWarning (LOCK_TIMED_OUT lockname);;
        raise (LockTimeout (LOCK_TIMED_OUT lockname))
      else mret tt
  end.

(** [while not is_locked: ...] in [lock]; [fuel] bounds the number of
    iterations the model follows. *)
Fixpoint lock_loop (fuel : nat) (lockname : string) (pid : Z)
    (server_required : bool) (deadline : option Z)
    (is_locked nonce : atom) (last_warning : option string)
  : M (atom * atom) :=
  if truthy is_locked then mret (is_locked, nonce)
  else
    match fuel with
    | O => loops
    | S fuel' =>
        r ← lock_attempt lockname pid server_required
              is_locked nonce last_warning;
        when (negb (truthy r.1.1))
          (check_lock_deadline lockname deadline;; sleep);;
        lock_loop fuel' lockname pid server_required deadline
          r.1.1 r.1.2 r.2
    end.

(** [lock(lockname, timeout, server_required)] *)
Definition lock (fuel : nat) (lockname : string) (tmo : timeout)
    (server_required : bool) : M (atom * atom * Z) :=
  let pid := getpid w in
  deadline ← get_deadline tmo;
  r ← lock_loop fuel lockname pid server_required deadline
        (ABool false) ANone None;
  mret (r.1, r.2, pid).

(** The [try] statement in the loop of [unlock]. *)
Definition unlock_attempt (lockname : string) (nonce : atom) (pid : Z)
    (server_required : bool) (is_locked : bool) (last_warning : option string)
  : M (bool * option string) :=
  try_except
    (l ← try_to_unlock lockname nonce pid server_required;
     mret (l, last_warning))
    (fun e =>
       match e with
       | TimeoutError m =>
           log LDebug m;;
           mret (is_locked, last_warning)
       | LockFailed m =>
           if contains WRONG_NONCE m then raise e
           else if is_new_warning m last_warning then
             log LDebug m;;
             mret (is_locked, Some m)
           else mret (is_locked, last_warning)
       | _ =>
           log_traceback e;;
           raise e
       end).

Definition UNLOCK_TIMED_OUT (lockname : string) : string :=
  "unlock timed out: " +:+ lockname.

(** [if deadline and now() > deadline: ...] in [unlock]. The name
    [warning_msg] is bound nowhere in [unlock] or in the module, so
    evaluating the argument of [LockTimeout(warning_msg)] raises
    [NameError]. *)
Definition check_unlock_deadline (lockname : string) (deadline : option Z)
  : M unit :=
  match deadline with
  | None => mret tt
  | Some d =>
      t ← now;
      if d <? t then
        log LWarning (UNLOCK_TIMED_OUT lockname);;
        raise (NameError "warning_msg")
      else mret tt
  end.

(** [while is_locked: ...] in [unlock]; the value is [is_locked]. *)
Fixpoint unlock_loop (fuel : nat) (lockname : string) (nonce : atom)
    (pid : Z) (server_required : bool) (deadline : option Z)
    (is_locked : bool) (last_warning : option string) : M bool :=
  if is_locked then
    match fuel with
    | O => loops
    | S fuel' =>
        r ← unlock_attempt lockname nonce pid server_required
              is_locked last_warning;
        when r.1 (check_unlock_deadline lockname deadline;; sleep);;
        unlock_loop fuel' lockname nonce pid server_required deadline
          r.1 r.2
    end
  else mret is_locked.

(** [unlock(lockname, nonce, pid, timeout, server_required)] *)
Definition unlock (fuel : nat) (lockname : string) (nonce : atom) (pid : Z)
    (tmo : timeout) (server_required : bool) : M bool :=
  deadline ← get_deadline tmo;
  is_locked ← unlock_loop fuel lockname nonce pid server_required deadline
                true None;
  mret (negb is_locked).

(** [not lockname] picks the default for [None] and for the empty
    string. *)
Definition resolve_lockname (lockname : option string) : string :=
  match lockname with
  | None => caller_id w
  | Some EmptyString => caller_id w
  | Some name => name
  end.

(** [with locked(lockname, timeout, server_required): body]. The events
    [EvCall] mark where [lock] and [unlock] are called and where the
    managed block runs. *)
Definition locked (fuel : nat) (lockname : option string) (tmo : timeout)
    (server_required : bool) (body : M unit) : M unit :=
  let name := resolve_lockname lockname in
  r ← try_except
        (emit (EvCall CallLock);;
         lock fuel name tmo server_required)
        (fun e =>
           log_traceback e;;
           raise e);
  try_finally
    (emit (EvCall CallBody);;
     body)
    (when (truthy r.1.1)
       (emit (EvCall CallUnlock);;
        unlock fuel name r.1.2 r.2 tmo server_required;;
        mret tt)).

End Client.

(** ** Predicates used in the statements *)

(** The calls made by [locked], oldest last, read off a trace. *)
Definition calls (tr : list event) : list call :=
  omap (fun ev => match ev with EvCall c => Some c | _ => None end) tr.

(** The number of [sleep(0.1)] in a trace. *)
Definition is_sleep (ev : event) : bool :=
  match ev with
  | EvSleep => true
  | _ => false
  end.

Definition sleeps (tr : list event) : nat :=
  length (List.filter is_sleep tr).

(** A field of a reply is present and passes a test. *)
Definition field_is (d : gmap string atom) (key : string)
    (test : atom -> bool) : bool :=
  match d !! key with
  | Some v => test v
  | None => false
  end.

(** A reply that grants [lockname]: ok, action ['lock'], same name. *)
Definition grants (d : gmap string atom) (lockname : string) : bool :=
  field_is d OK_KEY truthy
  && field_is d ACTION_KEY (fun a => py_eq a (AStr LOCK_ACTION))
  && field_is d LOCKNAME_KEY (fun n => py_eq n (AStr lockname)).

(** A reply that confirms a release, in the words of the description:
    the ok flag is true, the action is ['unlock'] and the nonce is the
    one that was sent. *)
Definition confirms_release (d : gmap string atom) (nonce : atom) : bool :=
  field_is d OK_KEY truthy
  && field_is d ACTION_KEY (fun a => py_eq a (AStr UNLOCK_ACTION))
  && field_is d NONCE_KEY (fun n => py_eq n nonce).

(** A reply in which the server says no. *)
Definition denies (d : gmap string atom) : bool :=
  field_is d OK_KEY (fun ok => negb (truthy ok)).

(** The reason a denial gives, as the rejection message words it. *)
Definition reason (d : gmap string atom) : string :=
  match d !! MESSAGE_KEY with
  | Some why => py_str why
  | None => WHY_UNKNOWN
  end.

(** The deadline, if any, has not passed at time [t]. *)
Definition deadline_open (deadline : option Z) (t : Z) : Prop :=
  match deadline with
  | None => True
  | Some d => t <= d
  end.

(** An attempt opens one socket, does not read the clock and makes
    none of the calls [locked] makes. *)
Definition attempt_frame (s s' : state) : Prop :=
  conns s' = S (conns s) /\ ticks s' = ticks s /\
  calls (trace s') = calls (trace s).

(** Socket [k] was connected and met a reply granting [lockname] with
    nonce [n]. *)
Definition granted_at (w : world) (k : nat) (lockname : string) (n : atom) : Prop :=
  on_connect (net_at w k) = Connected /\
  on_send (net_at w k) = Sent /\
  exists d, on_recv (net_at w k) = Value (PDict d) /\
            grants d lockname = true /\ d !! NONCE_KEY = Some n.

(** What a run of the loop of [lock] can end in. *)
Definition lock_loop_result (w : world) (lockname : string) (deadline : option Z)
    (s : state) (o : outcome (atom * atom)) (s' : state) : Prop :=
  (conns s <= conns s')%nat /\
  calls (trace s') = calls (trace s) /\
  match o with
  | Returns r =>
      r.1 = ABool true /\
      exists k, (conns s <= k < conns s')%nat /\ granted_at w k lockname r.2
  | Raises (LockTimeout _) => deadline <> None
  | Raises (LockFailed m) => contains WRONG_NONCE m = true
  | Raises (TimeoutError _) => False
  | Raises _ => True
  | Loops => True
  end.

(** What a call of [lock] can end in. *)
Definition lock_result (w : world) (lockname : string) (tmo : timeout)
    (s : state) (o : outcome (atom * atom * Z)) (s' : state) : Prop :=
  (conns s <= conns s')%nat /\
  calls (trace s') = calls (trace s) /\
  match o with
  | Returns r =>
      r.1.1 = ABool true /\ r.2 = getpid w /\
      exists k, (conns s <= k < conns s')%nat /\
                granted_at w k lockname r.1.2
  | Raises (LockTimeout _) => tmo <> TNone
  | Raises (LockFailed m) => contains WRONG_NONCE m = true
  | Raises (TimeoutError _) => False
  | Raises _ => True
  | Loops => True
  end.

(** What a run of the loop of [unlock], and a call of [unlock], can
    end in. *)
Definition unlock_result {A : Type} (s : state) (o : outcome A)
    (s' : state) : Prop :=
  (conns s <= conns s')%nat /\
  calls (trace s') = calls (trace s) /\
  match o with
  | Raises (LockTimeout _) => False
  | _ => True
  end.

(** ** The steps of the scoped helper *)

(** The state in which [locked] calls [lock]. *)
Definition at_lock (s : state) : state :=
  State (conns s) (ticks s) (EvCall CallLock :: trace s).

(** The state in which the managed block starts. *)
Definition at_body (s1 : state) : state :=
  State (conns s1) (ticks s1) (EvCall CallBody :: trace s1).

(** The state in which [locked] calls [unlock]. *)
Definition at_unlock (s2 : state) : state :=
  State (conns s2) (ticks s2) (EvCall CallUnlock :: trace s2).

(** What leaves a [finally] clause: the exception of the clause if it
    raised one, else what the block ended in. *)
Definition settle {A : Type} (block : outcome unit) (clause : outcome A)
  : outcome unit :=
  match clause with
  | Returns _ => block
  | Raises e => Raises e
  | Loops => Loops
  end.

(** ** Sample replies and worlds *)

Definition refused : sock :=
  Sock Refused Sent (Garbage (OtherError "SyntaxError")).

Definition garbled : sock :=
  Sock Connected Sent (Garbage (OtherError "SyntaxError")).

Definition reply (d : gmap string atom) : sock :=
  Sock Connected Sent (Value (PDict d)).

Definition answer (ok : bool) (action lockname : string) (key value : string)
  : gmap string atom :=
  <[OK_KEY := ABool ok]>
    (<[ACTION_KEY := AStr action]>
       (<[LOCKNAME_KEY := AStr lockname]>
          (<[key := AStr value]> ∅))).

Definition grant (lockname nonce : string) : gmap string atom :=
  answer true LOCK_ACTION lockname NONCE_KEY nonce.

Definition released (lockname nonce : string) : gmap string atom :=
  answer true UNLOCK_ACTION lockname NONCE_KEY nonce.

Definition deny (action lockname why : string) : gmap string atom :=
  answer false action lockname MESSAGE_KEY why.

(** A clock that advances 0.1 s between readings. *)
Definition clock (k : nat) : Z := 1000 + 100000 * Z.of_nat k.

Definition world_of (net : nat -> sock) : world :=
  World net clock 4242 "app.py:10".

(** No server is listening. *)
Definition w_down : world := world_of (fun _ => refused).

(** Someone else holds the lock for ever. *)
Definition w_busy : world :=
  world_of (fun _ => reply (deny LOCK_ACTION "lock1" "already locked")).

(** The lock is granted, then the first socket after it meets [after]. *)
Definition granted_then (after : sock) : world :=
  world_of (fun k =>
              match k with
              | O => reply (grant "lock1" "abc123")
              | S _ => after
              end).

(** The release is confirmed by a reply that echoes another name. *)
Definition w_free : world := granted_then (reply (released "lock2" "abc123")).

(** The server answers the release with a nonce mismatch. *)
Definition w_mismatch : world :=
  granted_then (reply (deny UNLOCK_ACTION "lock1" "Wrong nonce")).

(** The answer to the release cannot be parsed. *)
Definition w_garbled : world := granted_then garbled.

(** The server keeps refusing the release. *)
Definition w_stuck : world :=
  granted_then (reply (deny UNLOCK_ACTION "lock1" "try again")).


(** ** Further predicates on replies, sockets and traces *)

(** A parsed reply whose shape alone stops the checks: it is not a
    dict, or it has no ok flag. The value is the exception that
    [response[OK_KEY]] raises. *)
Definition malformed (p : parsed) : option exn :=
  match p with
  | PAtom _ => Some TypeError
  | PDict d =>
      match d !! OK_KEY with
      | None => Some (KeyError OK_KEY)
      | Some _ => None
      end
  end.

(** The first error a socket meets that is neither a refused
    connection nor a broken pipe. *)
Definition socket_error (sk : sock) : option sockerr :=
  match on_connect sk with
  | ConnectError e => Some e
  | Refused => None
  | Connected =>
      match on_send sk with
      | SendError e => Some e
      | BrokenPipe _ => None
      | Sent =>
          match on_recv sk with
          | RecvError e => Some e
          | _ => None
          end
      end
  end.

(** The trace after an attempt that got as far as sending [req]. *)
Definition sent_if (sk : sock) (req : gmap string atom) (tr : list event)
  : list event :=
  match on_connect sk, on_send sk with
  | Connected, Sent => EvSend req :: tr
  | _, _ => tr
  end.

(** The number of log records that carry [msg]. *)
Definition is_log_of (msg : string) (ev : event) : bool :=
  match ev with
  | EvLog _ m => String.eqb m msg
  | _ => false
  end.

Definition logged (msg : string) (tr : list event) : nat :=
  length (List.filter (is_log_of msg) tr).

(** How the sockets opened and the sleeps of a run of a retry loop
    relate: a run that ends has slept once less than it made attempts;
    a run still going after [fuel] iterations has made and slept
    [fuel] times. *)
Definition attempts_and_sleeps {A : Type} (fuel : nat) (s : state)
    (o : outcome A) (s' : state) : Prop :=
  match o with
  | Loops =>
      conns s' = (conns s + fuel)%nat /\
      sleeps (trace s') = (sleeps (trace s) + fuel)%nat
  | _ =>
      exists a : nat,
        (a < fuel)%nat /\
        conns s' = (conns s + S a)%nat /\
        sleeps (trace s') = (sleeps (trace s) + a)%nat
  end.

(** ** The default lock name and the [synchronized] decorator *)

Section Caller.

(** [re.match(pattern, filename)] finds a match. *)
Variable re_match : string -> string -> bool.

(** [s.endswith(suffix)] *)
Fixpoint ends_with (suffix s : string) : bool :=
  String.eqb suffix s
  || match s with
     | EmptyString => false
     | String _ t => ends_with suffix t
     end.

Fixpoint has_slash (s : string) : bool :=
  match s with
  | EmptyString => false
  | String c t => Ascii.eqb c "/" || has_slash t
  end.

(** [s.rpartition('/')[2]]: what follows the last slash, or all of [s]. *)
Fixpoint after_last_slash (s : string) : string :=
  match s with
  | EmptyString => EmptyString
  | String c t =>
      if has_slash t then after_last_slash t
      else if Ascii.eqb c "/" then t
      else String c t
  end.

(** [ignore_filename(filename)] inside [caller] *)
Definition ignore_filename (_ignore : list string) (filename : string)
  : bool :=
  if ends_with "/runpy.py" filename then true
  else
    fold_left
      (fun ignored pattern =>
         if re_match pattern filename then true else ignored)
      _ignore false.

(** The list [_ignore] that [caller] builds; [file] is the [__file__]
    of python/internals.py. *)
Definition ignore_list (ignore : option (list string))
    (this_module_valid : bool) (file : string) : list string :=
  let _ignore :=
    match ignore with
    | Some (p :: l) => p :: l
    | _ => []
    end in
  if this_module_valid then _ignore else _ignore ++ [file].

(** [caller(ignore, this_module_valid)]. [stack] is what
    [traceback.extract_stack()] returns, oldest frame first, reduced to
    the file name and the line number of each frame. *)
Definition caller (ignore : option (list string)) (this_module_valid : bool)
    (file : string) (stack : list (string * Z)) : option (string * Z) :=
  let _ignore := ignore_list ignore this_module_valid file in
  fold_left
    (fun call_line fr =>
       match call_line with
       | Some _ => call_line
       | None =>
           if ignore_filename _ignore fr.1 then None
           else Some (after_last_slash fr.1, fr.2)
       end)
    (rev stack) None.

(** [caller_id(ignore)]: unpacking the [None] that [caller] returns
    when it finds no frame raises [TypeError]. *)
Definition caller_id_of (ignore : option (list string)) (file : string)
    (stack : list (string * Z)) : M string :=
  match caller ignore false file stack with
  | Some (filename, line) => mret (filename +:+ ":" +:+ pretty line)
  | None => raise TypeError
  end.

End Caller.

(** [synchronized(function)], the wrapper it returns, for a [function]
    called for its effects. The first block under [locked] only looks
    up or stores a [threading.Lock] in the module's dict
    [synchronized_locks]; that lock object is never acquired nor used
    again, so the block has no effect on the lock server, the clock or
    the log and is the empty block here. *)
Definition synchronized (w : world) (fuel : nat) (function : M unit)
  : M unit :=
  locked w fuel None TNone true (mret tt);;
  locked w fuel None TNone true function.

(** The state in which the block of [locked] starts when the first
    reply grants the lock. *)
Definition locked_at_once (w : world) (lockname : option string) (s : state)
  : state :=
  at_body
    (State (S (conns s)) (ticks s)
       (EvSend (lock_request (resolve_lockname w lockname) (getpid w))
        :: trace (at_lock s))).

(** The state in which [locked] ends when the first reply to the
    release of [nonce] confirms it. *)
Definition released_at_once (w : world) (lockname : option string)
    (nonce : atom) (sb : state) : state :=
  State (S (conns sb)) (ticks sb)
    (EvSend (unlock_request (resolve_lockname w lockname) nonce (getpid w))
     :: trace (at_unlock sb)).

(** Two states that differ at most in what was logged and sent. *)
Definition same_but_log (s s' : state) : Prop :=
  conns s = conns s' /\ ticks s = ticks s' /\
  sleeps (trace s) = sleeps (trace s').

(** The doubled reply of a world that answers every request. *)
Definition w_turns : world :=
  world_of (fun k =>
              if Nat.even k then reply (grant "app.py:10" "abc123")
              else reply (released "app.py:10" "abc123")).


(** ** A weakest-precondition reading of the monad *)

(** [wp m Q s]: running [m] from [s] ends in an outcome and a state
    that satisfy [Q]. *)
Definition wp {A : Type} (m : M A) (Q : outcome A -> state -> Prop)
    (s : state) : Prop :=
  Q (m s).1 (m s).2.

Definition bind_post {A B : Type} (f : A -> M B)
    (Q : outcome B -> state -> Prop) (o : outcome A) (s : state) : Prop :=
  match o with
  | Returns a => wp (f a) Q s
  | Raises e => Q (Raises e) s
  | Loops => Q Loops s
  end.

Definition except_post {A : Type} (h : exn -> M A)
    (Q : outcome A -> state -> Prop) (o : outcome A) (s : state) : Prop :=
  match o with
  | Raises e => wp (h e) Q s
  | _ => Q o s
  end.

(** ** Rules of the weakest precondition *)

Lemma wp_ret {A : Type} (a : A) (Q : outcome A -> state -> Prop) s :
  Q (Returns a) s -> wp (mret a) Q s.
Proof. auto. Qed.

Lemma wp_raise {A : Type} e (Q : outcome A -> state -> Prop) s :
  Q (Raises e) s -> wp (raise e) Q s.
Proof. auto. Qed.

Lemma wp_loops {A : Type} (Q : outcome A -> state -> Prop) s :
  Q Loops s -> wp loops Q s.
Proof. auto. Qed.

Lemma wp_bind {A B : Type} (m : M A) (f : A -> M B) Q s :
  wp m (bind_post f Q) s -> wp (m ≫= f) Q s.
Proof.
  unfold wp, bind_post, mbind, M_bind.
  destruct (m s) as [[a|e|] s']; auto.
Qed.

Lemma wp_try_except {A : Type} (m : M A) (h : exn -> M A) Q s :
  wp m (except_post h Q) s -> wp (try_except m h) Q s.
Proof.
  unfold wp, except_post, try_except.
  destruct (m s) as [[a|e|] s']; auto.
Qed.

Lemma wp_mono {A : Type} (m : M A) (Q Q' : outcome A -> state -> Prop) s :
  wp m Q s -> (forall o s', Q o s' -> Q' o s') -> wp m Q' s.
Proof. unfold wp; auto. Qed.

Lemma wp_emit ev (Q : outcome unit -> state -> Prop) s :
  Q (Returns tt) (State (conns s) (ticks s) (ev :: trace s)) ->
  wp (emit ev) Q s.
Proof. auto. Qed.

Lemma wp_getitem p key (Q : outcome atom -> state -> Prop) s :
  match p with
  | PDict d =>
      match d !! key with
      | Some v => Q (Returns v) s
      | None => Q (Raises (KeyError key)) s
      end
  | PAtom _ => Q (Raises TypeError) s
  end ->
  wp (getitem p key) Q s.
Proof.
  unfold wp, getitem. destruct p as [d|a]; [destruct (d !! key)|]; auto.
Qed.

Lemma wp_open_socket w (Q : outcome sock -> state -> Prop) s :
  Q (Returns (net_at w (conns s)))
    (State (S (conns s)) (ticks s) (trace s)) ->
  wp (open_socket w) Q s.
Proof. auto. Qed.

Lemma wp_now w (Q : outcome Z -> state -> Prop) s :
  Q (Returns (now_at w (ticks s)))
    (State (conns s) (S (ticks s)) (trace s)) ->
  wp (now w) Q s.
Proof. auto. Qed.

(** One step of symbolic execution. *)
Ltac wp_step :=
  match goal with
  | |- wp (mbind _ _) _ _ => apply wp_bind
  | |- wp (mret _) _ _ => apply wp_ret
  | |- wp (raise _) _ _ => apply wp_raise
  | |- wp loops _ _ => apply wp_loops
  | |- wp (try_except _ _) _ _ => apply wp_try_except
  | |- wp (emit _) _ _ => apply wp_emit
  | |- wp (log _ _) _ _ => apply wp_emit
  | |- wp (log_traceback _) _ _ => apply wp_emit
  | |- wp sleep _ _ => apply wp_emit
  | |- wp (getitem _ _) _ _ => apply wp_getitem
  | |- wp (open_socket _) _ _ => apply wp_open_socket
  | |- wp (now _) _ _ => apply wp_now
  | |- wp (when _ _) _ _ => unfold when
  | |- bind_post _ _ _ _ => unfold bind_post at 1
  | |- except_post _ _ _ _ => unfold except_post at 1
  | |- wp (if ?b then _ else _) _ _ => destruct b eqn:?
  | |- wp (match ?x with _ => _ end) _ _ => destruct x eqn:?
  | |- match ?x with _ => _ end => destruct x eqn:?
  end.

(** Use a proved specification of a call and go on from its result. *)
Ltac wp_use H :=
  eapply wp_mono; [apply H | cbv beta; intros ? ? ?].

(** ** Facts about single attempts *)

Section Attempts.

Variable w : world.

Lemma field_is_lookup d key test v :
  d !! key = Some v -> field_is d key test = test v.
Proof. unfold field_is. intros ->. reflexivity. Qed.

Lemma check_lock_response_post lockname p s :
  wp (check_lock_response lockname p)
     (fun o s' =>
        s' = s /\
        match o with
        | Returns (l, n) =>
            l = ABool true /\
            exists d, p = PDict d /\ grants d lockname = true /\
                      d !! NONCE_KEY = Some n
        | Raises (LockTimeout _) => False
        | Raises _ => True
        | Loops => False
        end) s.
Proof.
  unfold check_lock_response.
  repeat wp_step; simplify_eq; split; try reflexivity; try exact I.
  all: try (simpl in *; congruence).
  simpl in *. split; [congruence|]. eexists; split; [reflexivity|].
  split; [|assumption]. unfold grants.
  erewrite !field_is_lookup by eassumption.
  repeat (apply andb_true_intro; split); assumption.
Qed.

Lemma check_lock_response_denied lockname d s :
  denies d = true ->
  check_lock_response lockname (PDict d) s
  = (Raises (LockFailed (REJECTED_LOCK_MESSAGE lockname (reason d))), s).
Proof.
  unfold denies, field_is, check_lock_response, reason, getitem, has_key.
  unfold mbind, M_bind, mret, M_ret, raise.
  destruct (d !! OK_KEY) as [ok|]; [|discriminate].
  intros Hok. apply negb_true_iff in Hok. simpl. rewrite Hok. simpl.
  rewrite Hok. destruct (d !! MESSAGE_KEY) as [why|] eqn:Hm; simpl.
  - reflexivity.
  - reflexivity.
Qed.


Lemma try_to_lock_post lockname pid sr s :
  wp (try_to_lock w lockname pid sr)
     (fun o s' =>
        attempt_frame s s' /\
        match o with
        | Returns (l, n) =>
            (l = ABool false /\ n = ANone) \/
            (l = ABool true /\ granted_at w (conns s) lockname n)
        | Raises (LockTimeout _) => False
        | Raises _ => True
        | Loops => False
        end) s.
Proof.
  unfold try_to_lock, connect_to_server, attempt_frame.
  repeat wp_step; simpl; try tauto.
  all: try (destruct e; simpl; tauto).
  wp_use check_lock_response_post.
  destruct H as [-> H]. simpl. repeat split; try reflexivity.
  destruct o as [[l n]|e|]; try assumption.
  right. destruct H as [-> (d & -> & Hg & Hn)].
  split; [reflexivity|]. unfold granted_at. eauto 10.
Qed.


(** Exact results of [try_to_lock] on particular replies. *)

Lemma try_to_lock_refused_optional lockname pid s :
  on_connect (net_at w (conns s)) = Refused ->
  try_to_lock w lockname pid false s
  = (Returns (ABool false, ANone),
     State (S (conns s)) (ticks s)
       (EvLog LWarning (NO_SERVER_WARNING false) :: trace s)).
Proof.
  intros H. unfold try_to_lock, connect_to_server, open_socket.
  unfold mbind, M_bind. simpl. rewrite H. reflexivity.
Qed.

Lemma try_to_lock_refused_required lockname pid s :
  on_connect (net_at w (conns s)) = Refused ->
  try_to_lock w lockname pid true s
  = (Raises (LockFailed NO_SERVER_MESSAGE),
     State (S (conns s)) (ticks s)
       (EvLog LError NO_SERVER_MESSAGE :: trace s)).
Proof.
  intros H. unfold try_to_lock, connect_to_server, open_socket.
  unfold mbind, M_bind. simpl. rewrite H. reflexivity.
Qed.

Lemma try_to_lock_garbage lockname pid sr e s :
  net_at w (conns s) = Sock Connected Sent (Garbage e) ->
  try_to_lock w lockname pid sr s
  = (Returns (ABool false, ANone),
     State (S (conns s)) (ticks s)
       (EvTraceback e :: EvSend (lock_request lockname pid) :: trace s)).
Proof.
  intros H. unfold try_to_lock, connect_to_server, open_socket.
  unfold mbind, M_bind. simpl. rewrite H. reflexivity.
Qed.

Lemma try_to_lock_denied lockname pid sr d s :
  net_at w (conns s) = Sock Connected Sent (Value (PDict d)) ->
  denies d = true ->
  try_to_lock w lockname pid sr s
  = (Raises (LockFailed (REJECTED_LOCK_MESSAGE lockname (reason d))),
     State (S (conns s)) (ticks s)
       (EvSend (lock_request lockname pid) :: trace s)).
Proof.
  intros H Hd. unfold try_to_lock, connect_to_server, open_socket.
  unfold mbind, M_bind. simpl. rewrite H. simpl.
  rewrite check_lock_response_denied by assumption. reflexivity.
Qed.

(** The same for [try_to_unlock]. *)

Lemma check_unlock_response_dict lockname nonce d s :
  check_unlock_response lockname nonce (PDict d) s
  = (if confirms_release d nonce then Returns false
     else
       match d !! OK_KEY with
       | None => Raises (KeyError OK_KEY)
       | Some ok =>
           if truthy ok then
             match d !! ACTION_KEY with
             | None => Raises (KeyError ACTION_KEY)
             | Some a =>
                 if py_eq a (AStr UNLOCK_ACTION) then
                   match d !! NONCE_KEY with
                   | None => Raises (KeyError NONCE_KEY)
                   | Some _ =>
                       Raises (LockFailed
                                 (REJECTED_UNLOCK_MESSAGE lockname (reason d)))
                   end
                 else
                   Raises (LockFailed
                             (REJECTED_UNLOCK_MESSAGE lockname (reason d)))
             end
           else
             Raises (LockFailed (REJECTED_UNLOCK_MESSAGE lockname (reason d)))
       end, s).
Proof.
  unfold check_unlock_response, confirms_release, field_is, reason,
    getitem, has_key.
  unfold mbind, M_bind, mret, M_ret, raise.
  destruct (d !! OK_KEY) as [ok|]; simpl; [|reflexivity].
  destruct (truthy ok); simpl.
  - destruct (d !! ACTION_KEY) as [a|]; simpl; [|reflexivity].
    destruct (py_eq a (AStr UNLOCK_ACTION)); simpl.
    + destruct (d !! NONCE_KEY) as [x|]; simpl; [|reflexivity].
      destruct (py_eq x nonce); simpl; [reflexivity|].
      destruct (d !! MESSAGE_KEY); reflexivity.
    + destruct (d !! MESSAGE_KEY); reflexivity.
  - destruct (d !! MESSAGE_KEY); reflexivity.
Qed.

Lemma check_unlock_response_post lockname nonce p s :
  wp (check_unlock_response lockname nonce p)
     (fun o s' =>
        s' = s /\
        match o with
        | Returns l => l = false
        | Raises (LockTimeout _) => False
        | Raises _ => True
        | Loops => False
        end) s.
Proof.
  unfold check_unlock_response.
  repeat wp_step; simplify_eq; split; try reflexivity; exact I.
Qed.

Lemma try_to_unlock_post lockname nonce pid sr s :
  wp (try_to_unlock w lockname nonce pid sr)
     (fun o s' =>
        attempt_frame s s' /\
        match o with
        | Raises (LockTimeout _) => False
        | Loops => False
        | _ => True
        end) s.
Proof.
  unfold try_to_unlock, connect_to_server, attempt_frame.
  repeat wp_step; simpl; try tauto.
  all: try (destruct e; simpl; tauto).
  wp_use check_unlock_response_post.
  destruct H as [-> H]. simpl. repeat split; try reflexivity.
  destruct o as [l|e|]; auto.
Qed.

Lemma try_to_unlock_reply lockname nonce pid sr d s :
  net_at w (conns s) = Sock Connected Sent (Value (PDict d)) ->
  try_to_unlock w lockname nonce pid sr s
  = ((check_unlock_response lockname nonce (PDict d) s).1,
     State (S (conns s)) (ticks s)
       (EvSend (unlock_request lockname nonce pid) :: trace s)).
Proof.
  intros H. unfold try_to_unlock, connect_to_server, open_socket.
  unfold mbind, M_bind. simpl. rewrite H. simpl.
  rewrite !check_unlock_response_dict.
  destruct (confirms_release d nonce); [reflexivity|].
  repeat case_match; reflexivity.
Qed.

Lemma try_to_unlock_garbage lockname nonce pid sr e s :
  net_at w (conns s) = Sock Connected Sent (Garbage e) ->
  try_to_unlock w lockname nonce pid sr s
  = (Returns false,
     State (S (conns s)) (ticks s)
       (EvTraceback e
        :: EvSend (unlock_request lockname nonce pid) :: trace s)).
Proof.
  intros H. unfold try_to_unlock, connect_to_server, open_socket.
  unfold mbind, M_bind. simpl. rewrite H. reflexivity.
Qed.


End Attempts.

(** ** Facts about the retry loops *)

Section Loops.

Variable w : world.

Lemma get_deadline_none s : get_deadline w TNone s = (Returns None, s).
Proof. reflexivity. Qed.

Lemma get_deadline_post tmo s :
  wp (get_deadline w tmo)
     (fun o s' =>
        conns s' = conns s /\ trace s' = trace s /\
        match o with
        | Returns None => tmo = TNone /\ s' = s
        | Returns (Some d) =>
            ticks s' = S (ticks s) /\
            exists us, (tmo = TDelta us \/ tmo = TSeconds us) /\
                       d = now_at w (ticks s) + us
        | Raises (LockTimeout _) => False
        | Raises (LockFailed _) => False
        | Raises (TimeoutError _) => False
        | Raises _ => True
        | Loops => False
        end) s.
Proof.
  unfold get_deadline, datetime_add, timedelta_seconds.
  repeat wp_step; simpl; repeat split; eauto.
Qed.

Lemma lock_loop_done fuel lockname pid sr deadline l n lw s :
  truthy l = true ->
  lock_loop w fuel lockname pid sr deadline l n lw s = (Returns (l, n), s).
Proof. intros H. destruct fuel; simpl; rewrite H; reflexivity. Qed.

Lemma lock_attempt_post lockname pid sr l n lw s :
  truthy l = false ->
  wp (lock_attempt w lockname pid sr l n lw)
     (fun o s' =>
        attempt_frame s s' /\
        match o with
        | Returns r =>
            truthy r.1.1 = false \/
            (r.1.1 = ABool true /\ granted_at w (conns s) lockname r.1.2)
        | Raises (LockTimeout _) => False
        | Raises (LockFailed m) => contains WRONG_NONCE m = true
        | Raises (TimeoutError _) => False
        | Raises _ => True
        | Loops => False
        end) s.
Proof.
  intros Hl. unfold lock_attempt.
  wp_step. wp_step. wp_use try_to_lock_post.
  destruct H as [Hf H]. unfold attempt_frame in *.
  destruct o as [[l1 n1]|e|]; simpl.
  - split; [assumption|]. simpl. destruct H as [[-> ->]|[-> H]]; auto.
  - destruct e; try contradiction; repeat wp_step; simpl; intuition.
  - contradiction.
Qed.


Lemma check_lock_deadline_post lockname deadline s :
  wp (check_lock_deadline w lockname deadline)
     (fun o s' =>
        conns s' = conns s /\ calls (trace s') = calls (trace s) /\
        match o with
        | Returns _ => True
        | Raises e =>
            exists d, deadline = Some d /\ d < now_at w (ticks s) /\
                      e = LockTimeout (LOCK_TIMED_OUT lockname)
        | Loops => False
        end) s.
Proof.
  unfold check_lock_deadline.
  repeat wp_step; simpl; repeat split; eauto.
  eexists; repeat split; eauto. lia.
Qed.

Lemma lock_loop_post fuel lockname pid sr deadline : forall l n lw s,
  truthy l = false ->
  wp (lock_loop w fuel lockname pid sr deadline l n lw)
     (lock_loop_result w lockname deadline s) s.
Proof.
  induction fuel as [|fuel IH]; intros l n lw s Hl; simpl; rewrite Hl.
  - wp_step. unfold lock_loop_result. auto.
  - wp_step. wp_use (lock_attempt_post lockname pid sr l n lw s Hl).
    destruct H as [(Hc & Ht & Hk) H].
    destruct o as [r|e|]; simpl; [| |contradiction].
    + destruct H as [Hr|[Hr Hg]].
      * wp_step. rewrite Hr. simpl. wp_step.
        wp_use check_lock_deadline_post.
        destruct H as (Hc1 & Hk1 & H).
        destruct o as [[]|e|]; simpl; [| |contradiction].
        -- repeat wp_step. simpl.
           eapply wp_mono; [apply IH; assumption|].
           intros o s2 (Hc2 & Hk2 & H2). simpl in *.
           unfold lock_loop_result. split; [lia|]. split; [congruence|].
           destruct o as [r2|e2|]; auto.
           destruct H2 as [Hr2 (k & Hk3 & Hg)]. split; [assumption|].
           exists k. split; [lia|assumption].
        -- destruct H as (d & -> & _ & ->).
           unfold lock_loop_result. split; [lia|]. split; [congruence|].
           discriminate.
      * wp_step. rewrite Hr. simpl. repeat wp_step.
        unfold wp. rewrite lock_loop_done by reflexivity.
        unfold lock_loop_result. simpl. split; [lia|]. split; [congruence|].
        split; [reflexivity|]. exists (conns s). split; [lia|assumption].
    + unfold lock_loop_result. split; [lia|]. split; [congruence|].
      destruct e; auto.
Qed.

Lemma lock_post fuel lockname tmo sr s :
  wp (lock w fuel lockname tmo sr) (lock_result w lockname tmo s) s.
Proof.
  unfold lock. wp_step. wp_use get_deadline_post.
  destruct H as (Hc & Ht & H).
  destruct o as [deadline|e|]; simpl.
  - wp_step.
    eapply wp_mono; [apply lock_loop_post; reflexivity|].
    intros o s2 (Hc2 & Hk2 & H2). simpl.
    assert (Hk : calls (trace s2) = calls (trace s)) by congruence.
    destruct o as [r|e|]; simpl.
    + wp_step. unfold lock_result. simpl.
      destruct H2 as [Hr (k & Hk' & Hg)].
      split; [lia|]. split; [assumption|]. split; [assumption|].
      split; [reflexivity|]. exists k. split; [lia|assumption].
    + unfold lock_result. split; [lia|]. split; [assumption|].
      destruct e; auto.
      destruct deadline; [|congruence].
      destruct H as (_ & us & [-> | ->] & _); discriminate.
    + unfold lock_result. split; [lia|]. split; [assumption|]. exact I.
  - unfold lock_result. split; [lia|]. split; [congruence|].
    destruct e; auto; contradiction.
  - contradiction.
Qed.


Lemma unlock_attempt_post lockname nonce pid sr l lw s :
  wp (unlock_attempt w lockname nonce pid sr l lw)
     (fun o s' =>
        attempt_frame s s' /\
        match o with
        | Raises (LockTimeout _) => False
        | Loops => False
        | _ => True
        end) s.
Proof.
  unfold unlock_attempt.
  wp_step. wp_step. wp_use try_to_unlock_post.
  destruct H as [Hf H]. unfold attempt_frame in *.
  destruct o as [l1|e|]; simpl.
  - split; [assumption|exact I].
  - destruct e; try contradiction; repeat wp_step; simpl; intuition.
  - contradiction.
Qed.

Lemma check_unlock_deadline_post lockname deadline s :
  wp (check_unlock_deadline w lockname deadline)
     (fun o s' =>
        conns s' = conns s /\ calls (trace s') = calls (trace s) /\
        match o with
        | Returns _ => True
        | Raises e =>
            exists d, deadline = Some d /\ d < now_at w (ticks s) /\
                      e = NameError "warning_msg"
        | Loops => False
        end) s.
Proof.
  unfold check_unlock_deadline.
  repeat wp_step; simpl; repeat split; eauto.
  eexists; repeat split; eauto. lia.
Qed.

Lemma unlock_loop_post fuel lockname nonce pid sr deadline : forall l lw s,
  wp (unlock_loop w fuel lockname nonce pid sr deadline l lw)
     (unlock_result s) s.
Proof.
  induction fuel as [|fuel IH]; intros l lw s; simpl; destruct l.
  - wp_step. unfold unlock_result. auto.
  - wp_step. unfold unlock_result. auto.
  - wp_step. wp_use unlock_attempt_post.
    destruct H as [(Hc & Ht & Hk) H].
    destruct o as [r|e|]; simpl; [| |contradiction].
    + wp_step. destruct r as [l1 lw1]; simpl. destruct l1; simpl.
      * wp_step. wp_use check_unlock_deadline_post.
        destruct H0 as (Hc1 & Hk1 & H1).
        destruct o as [[]|e|]; simpl; [| |contradiction].
        -- repeat wp_step. simpl.
           eapply wp_mono; [apply IH|].
           intros o s2 (Hc2 & Hk2 & H2). simpl in *.
           unfold unlock_result. split; [lia|]. split; [congruence|].
           assumption.
        -- destruct H1 as (d & -> & _ & ->).
           unfold unlock_result. split; [lia|]. split; [congruence|].
           exact I.
      * repeat wp_step.
        eapply wp_mono; [apply IH|].
        intros o s2 (Hc2 & Hk2 & H2). simpl in *.
        unfold unlock_result. split; [lia|]. split; [congruence|].
        assumption.
    + unfold unlock_result. split; [lia|]. split; [congruence|].
      destruct e; auto.
  - wp_step. unfold unlock_result. auto.
Qed.

Lemma unlock_post fuel lockname nonce pid tmo sr s :
  wp (unlock w fuel lockname nonce pid tmo sr) (unlock_result s) s.
Proof.
  unfold unlock. wp_step. wp_use get_deadline_post.
  destruct H as (Hc & Ht & H).
  destruct o as [deadline|e|]; simpl.
  - wp_step.
    eapply wp_mono; [apply unlock_loop_post|].
    intros o s2 (Hc2 & Hk2 & H2). simpl.
    assert (Hk : calls (trace s2) = calls (trace s)) by congruence.
    destruct o as [r|e|]; simpl.
    + wp_step. unfold unlock_result. split; [lia|]. split; [assumption|].
      exact I.
    + unfold unlock_result. split; [lia|]. split; [assumption|].
      destruct e; auto.
    + unfold unlock_result. split; [lia|]. split; [assumption|]. exact I.
  - unfold unlock_result. split; [lia|]. split; [congruence|].
    destruct e; auto.
  - contradiction.
Qed.

End Loops.

(** ** The result of [lock] and the test of [try_to_unlock] *)

(** C9: whenever [lock] returns, the triple it returns has
    [is_locked = True], a nonce read from a reply that granted this
    lock name during the call, and the process id of the caller; so a
    normal return is never a result that says not locked. *)
Theorem lock_returns_locked w fuel lockname tmo sr s l n p s' :
  lock w fuel lockname tmo sr s = (Returns (l, n, p), s') ->
  l = ABool true /\ p = getpid w /\
  exists k, (conns s <= k < conns s')%nat /\ granted_at w k lockname n.
Proof.
  intros H. pose proof (lock_post w fuel lockname tmo sr s) as P.
  unfold wp, lock_result in P. rewrite H in P. simpl in P.
  destruct P as (_ & _ & Hl & Hp & Hk). auto.
Qed.

Lemma lock_returns_locked_witness :
  ABool true = ABool true /\ 4242 = getpid w_free /\
  exists k, (0 <= k < 1)%nat /\ granted_at w_free k "lock1" (AStr "abc123").
Proof.
  apply (lock_returns_locked w_free 1 "lock1" TNone true initial
           (ABool true) (AStr "abc123") 4242
           (lock w_free 1 "lock1" TNone true initial).2).
  vm_compute. reflexivity.
Defined.

(** C10: when the reply to one unlock attempt parses as a dict, the
    attempt reports the lock released exactly when the reply's ok flag
    is true, its action is ['unlock'] and its nonce equals the nonce
    sent; it never reports the lock as still held; and the lock name
    the reply echoes has no influence on the result. *)
Theorem try_to_unlock_accepts_iff w lockname nonce pid sr s d :
  net_at w (conns s) = reply d ->
  ((try_to_unlock w lockname nonce pid sr s).1 = Returns false
   <-> confirms_release d nonce = true) /\
  (try_to_unlock w lockname nonce pid sr s).1 <> Returns true /\
  (forall w' other,
      net_at w' (conns s) = reply (<[LOCKNAME_KEY := other]> d) ->
      (try_to_unlock w' lockname nonce pid sr s).1
      = (try_to_unlock w lockname nonce pid sr s).1).
Proof.
  intros H. unfold reply in *.
  rewrite (try_to_unlock_reply w _ _ _ _ d) by assumption. simpl.
  split; [|split].
  - rewrite check_unlock_response_dict. simpl.
    destruct (confirms_release d nonce); [tauto|].
    split; [|discriminate]. repeat case_match; discriminate.
  - rewrite check_unlock_response_dict. simpl.
    destruct (confirms_release d nonce); [discriminate|].
    repeat case_match; discriminate.
  - intros w' other H'.
    rewrite (try_to_unlock_reply w' _ _ _ _ _ _ H'). simpl.
    rewrite !check_unlock_response_dict. simpl.
    unfold confirms_release, field_is, reason.
    rewrite !lookup_insert_ne by discriminate. reflexivity.
Qed.

Lemma try_to_unlock_accepts_iff_witness :
  (try_to_unlock w_free "lock1" (AStr "abc123") 4242 true
     (State 1 0 [])).1 = Returns false.
Proof.
  apply (try_to_unlock_accepts_iff w_free "lock1" (AStr "abc123") 4242 true
           (State 1 0 []) (released "lock2" "abc123")).
  - reflexivity.
  - vm_compute. reflexivity.
Defined.

(** ** Rejections: fatal or retried *)

Lemma contains_app_r sub p s :
  contains sub s = true -> contains sub (p +:+ s) = true.
Proof.
  intros H. induction p as [|a p IH]; [exact H|].
  change (String a p +:+ s) with (String a (p +:+ s)).
  simpl. rewrite IH. apply orb_true_r.
Qed.



Lemma bind_raises {A B : Type} (m : M A) (f : A -> M B) s e :
  (m s).1 = Raises e -> ((m ≫= f) s).1 = Raises e.
Proof.
  unfold mbind, M_bind. destruct (m s) as [[a|e'|] s']; simpl; congruence.
Qed.

Lemma lock_without_timeout w fuel lockname sr s :
  lock w fuel lockname TNone sr s
  = (lock_loop w fuel lockname (getpid w) sr None (ABool false) ANone None
       ≫= λ r, mret (r.1, r.2, getpid w)) s.
Proof. reflexivity. Qed.

Lemma lock_loop_denied_step w fuel lockname pid sr deadline l n lw s d :
  net_at w (conns s) = reply d ->
  denies d = true ->
  contains WRONG_NONCE (REJECTED_LOCK_MESSAGE lockname (reason d)) = false ->
  deadline_open deadline (now_at w (ticks s)) ->
  truthy l = false ->
  exists lw' s',
    lock_loop w (S fuel) lockname pid sr deadline l n lw s
    = lock_loop w fuel lockname pid sr deadline l n lw' s' /\
    conns s' = S (conns s) /\
    sleeps (trace s') = S (sleeps (trace s)) /\
    calls (trace s') = calls (trace s).
Proof.
  intros Hl Hdl Hwl Hopen Hf. cbn [lock_loop]. rewrite Hf.
  unfold lock_attempt, try_except, mbind, M_bind.
  rewrite (try_to_lock_denied w _ _ _ d) by assumption.
  rewrite Hwl.
  destruct (is_new_warning _ lw); simpl; rewrite Hf; simpl.
  all: unfold check_lock_deadline, mbind, M_bind; simpl.
  all: destruct deadline as [dl|]; simpl in *.
  all: try (destruct (dl <? now_at w (ticks s)) eqn:E; [lia|]; simpl).
  all: eexists; eexists; split; [reflexivity|]; simpl; auto.
Qed.

Lemma lock_loop_denied_forever w lockname pid sr d :
  (forall k, net_at w k = reply d) ->
  denies d = true ->
  contains WRONG_NONCE (REJECTED_LOCK_MESSAGE lockname (reason d)) = false ->
  forall fuel l n lw s,
    truthy l = false ->
    (lock_loop w fuel lockname pid sr None l n lw s).1 = Loops.
Proof.
  intros Hn Hd Hw. induction fuel as [|fuel IH]; intros l n lw s Hf.
  - simpl. rewrite Hf. reflexivity.
  - destruct (lock_loop_denied_step w fuel lockname pid sr None l n lw s d)
      as (lw' & s' & -> & _); auto. exact I.
Qed.





(** ** Deadlines *)



(** ** The scoped helper *)

Section Scoped.

Variable w : world.

Lemma locked_acquire_raises fuel lockname tmo sr body s e s1 :
  lock w fuel (resolve_lockname w lockname) tmo sr (at_lock s)
  = (Raises e, s1) ->
  locked w fuel lockname tmo sr body s
  = (Raises e, State (conns s1) (ticks s1) (EvTraceback e :: trace s1)).
Proof.
  intros H. unfold locked, try_except, mbind, M_bind, emit.
  unfold at_lock in H. rewrite H. reflexivity.
Qed.

Lemma locked_acquire_loops fuel lockname tmo sr body s s1 :
  lock w fuel (resolve_lockname w lockname) tmo sr (at_lock s)
  = (Loops, s1) ->
  locked w fuel lockname tmo sr body s = (Loops, s1).
Proof.
  intros H. unfold locked, try_except, mbind, M_bind, emit.
  unfold at_lock in H. rewrite H. reflexivity.
Qed.

Lemma locked_acquired fuel lockname tmo sr body s r s1 :
  lock w fuel (resolve_lockname w lockname) tmo sr (at_lock s)
  = (Returns r, s1) ->
  let name := resolve_lockname w lockname in
  let block := body (at_body s1) in
  let release := unlock w fuel name r.1.2 r.2 tmo sr (at_unlock block.2) in
  locked w fuel lockname tmo sr body s
  = match block.1 with
    | Loops => (Loops, block.2)
    | _ => (settle block.1 release.1, release.2)
    end.
Proof.
  intros H. cbv zeta.
  pose proof (lock_post w fuel (resolve_lockname w lockname) tmo sr
                (at_lock s)) as P.
  unfold wp, lock_result in P. rewrite H in P. simpl in P.
  destruct P as (_ & _ & Hr & _).
  unfold locked, try_except, try_finally, when, mbind, M_bind, emit.
  unfold at_lock in H. rewrite H. rewrite Hr. simpl.
  unfold at_body, at_unlock.
  destruct (body _) as [[[]|e|] s2]; simpl; [| |reflexivity].
  all: destruct (unlock _ _ _ _ _ _ _ _) as [[b|e'|] s3]; reflexivity.
Qed.

End Scoped.

(** C3: [locked] calls [lock] once. If [lock] raises, its exception
    leaves [locked] from the state [lock] ended in, with the traceback
    logged and nothing more: the managed block does not run and
    [unlock] is not called. If [lock] returns, the block runs once
    from the state [lock] ended in and, whether it completes or raises,
    [unlock] runs once with the name, nonce and pid of the lock from
    the state the block ended in, and [locked] ends in the state that
    run of [unlock] ends in. For a block that does not itself go
    through the call sites of [locked], the calls recorded are then
    [lock], block, [unlock] in that order, and [lock] alone when it did
    not return. *)
Theorem locked_releases_exactly_once w fuel lockname tmo sr body s :
  let name := resolve_lockname w lockname in
  let acquire := lock w fuel name tmo sr (at_lock s) in
  let block := body (at_body acquire.2) in
  let after := locked w fuel lockname tmo sr body s in
  match acquire.1 with
  | Returns r =>
      let release :=
        unlock w fuel name r.1.2 r.2 tmo sr (at_unlock block.2) in
      match block.1 with
      | Loops => after = (Loops, block.2)
      | _ => after = (settle block.1 release.1, release.2)
      end
  | Raises e =>
      after
      = (Raises e,
         State (conns acquire.2) (ticks acquire.2)
           (EvTraceback e :: trace acquire.2))
  | Loops => after = (Loops, acquire.2)
  end
  /\ ((forall s0, calls (trace (body s0).2) = calls (trace s0)) ->
      calls (trace after.2)
      = match acquire.1 with
        | Returns _ =>
            match block.1 with
            | Loops => CallBody :: CallLock :: calls (trace s)
            | _ => CallUnlock :: CallBody :: CallLock :: calls (trace s)
            end
        | _ => CallLock :: calls (trace s)
        end).
Proof.
  cbv zeta.
  pose proof (lock_post w fuel (resolve_lockname w lockname) tmo sr
                (at_lock s)) as P.
  unfold wp, lock_result in P.
  destruct (lock w fuel (resolve_lockname w lockname) tmo sr (at_lock s))
    as [[r|e|] s1] eqn:E; simpl in P; destruct P as (_ & Hk & _);
    cbn [fst snd].
  - rewrite (locked_acquired w _ _ _ _ _ _ _ _ E). cbv zeta.
    pose proof (unlock_post w fuel (resolve_lockname w lockname) r.1.2 r.2
                  tmo sr (at_unlock (body (at_body s1)).2)) as U.
    unfold wp, unlock_result in U. destruct U as (_ & Hu & _).
    simpl in Hu. split.
    + destruct (body (at_body s1)).1; reflexivity.
    + intros Hbody. pose proof (Hbody (at_body s1)) as Hb. simpl in Hb.
      rewrite Hb, Hk in Hu.
      destruct (body (at_body s1)).1; cbn [fst snd]; auto.
      rewrite Hb, Hk. reflexivity.
  - rewrite (locked_acquire_raises w _ _ _ _ _ _ _ _ E). simpl. auto.
  - rewrite (locked_acquire_loops w _ _ _ _ _ _ _ E). simpl. auto.
Qed.

Lemma locked_releases_exactly_once_witness :
  let run :=
    locked w_free 1 (Some "lock1") TNone true (raise (OtherError "boom"))
      initial in
  run
  = (Raises (OtherError "boom"),
     State 2 0
       [EvSend (unlock_request "lock1" (AStr "abc123") 4242);
        EvCall CallUnlock; EvCall CallBody;
        EvSend (lock_request "lock1" 4242); EvCall CallLock])
  /\ calls (trace run.2) = [CallUnlock; CallBody; CallLock].
Proof.
  cbv zeta.
  pose proof (locked_releases_exactly_once w_free 1 (Some "lock1") TNone true
                (raise (OtherError "boom")) initial) as [Hstate Hcalls].
  split.
  - etransitivity; [exact Hstate|]. vm_compute. reflexivity.
  - etransitivity; [exact (Hcalls (fun s0 => eq_refl))|]. reflexivity.
Defined.

(** C8, as the code has it: when the managed block raises, [unlock] is
    still called; if [unlock] returns, the exception of the block
    propagates unchanged; if [unlock] raises, its exception propagates
    in place of the one of the block, and [locked] logs nothing after
    [unlock]. *)
Theorem locked_release_failure_replaces_body_exception
    w fuel lockname tmo sr body s r s1 e s2 :
  lock w fuel (resolve_lockname w lockname) tmo sr (at_lock s)
  = (Returns r, s1) ->
  body (at_body s1) = (Raises e, s2) ->
  let release :=
    unlock w fuel (resolve_lockname w lockname) r.1.2 r.2 tmo sr
      (at_unlock s2) in
  locked w fuel lockname tmo sr body s
  = (match release.1 with
     | Returns _ => Raises e
     | Raises e' => Raises e'
     | Loops => Loops
     end, release.2).
Proof.
  intros Hl Hb. cbv zeta.
  rewrite (locked_acquired w _ _ _ _ _ _ _ _ Hl). cbv zeta.
  rewrite Hb. reflexivity.
Qed.

Lemma locked_release_failure_replaces_body_exception_witness :
  (locked w_mismatch 1 (Some "lock1") TNone true
     (raise (OtherError "boom")) initial).1
  = Raises (LockFailed (REJECTED_UNLOCK_MESSAGE "lock1" "Wrong nonce")).
Proof.
  rewrite (locked_release_failure_replaces_body_exception w_mismatch 1
             (Some "lock1") TNone true (raise (OtherError "boom")) initial
             (ABool true, AStr "abc123", 4242)
             (lock w_mismatch 1 "lock1" TNone true (at_lock initial)).2
             (OtherError "boom")
             (at_body (lock w_mismatch 1 "lock1" TNone true
                         (at_lock initial)).2)).
  - vm_compute. reflexivity.
  - vm_compute. reflexivity.
  - reflexivity.
Defined.

(** C8 as stated fails: the block raises ["boom"], the release is
    refused with a nonce mismatch, and what leaves [locked] is the
    [LockFailed] of the release, with no log record of it. *)
Lemma locked_release_failure_masks_body_exception :
  let run :=
    locked w_mismatch 1 (Some "lock1") TNone true
      (raise (OtherError "boom")) initial in
  run.1 = Raises (LockFailed (REJECTED_UNLOCK_MESSAGE "lock1" "Wrong nonce"))
  /\ run.1 <> Raises (OtherError "boom")
  /\ (forall lv msg, ~ In (EvLog lv msg) (trace run.2))
  /\ (forall e, ~ In (EvTraceback e) (trace run.2)).
Proof.
  cbv zeta. split; [vm_compute; reflexivity|].
  split; [vm_compute; discriminate|].
  split; [intros lv msg|intros e]; vm_compute; intuition discriminate.
Qed.

(** ** When no server is listening *)

Lemma no_server_message_is_not_wrong_nonce :
  contains WRONG_NONCE NO_SERVER_MESSAGE = false.
Proof. vm_compute. reflexivity. Qed.

(** One iteration of [lock] against a refused connection: either the
    deadline has passed, or the loop sleeps and goes round again. *)
Lemma lock_loop_refused_step w fuel lockname pid sr deadline l n lw s :
  on_connect (net_at w (conns s)) = Refused ->
  truthy l = false ->
  (exists d s', deadline = Some d /\ d < now_at w (ticks s) /\
     lock_loop w (S fuel) lockname pid sr deadline l n lw s
     = (Raises (LockTimeout (LOCK_TIMED_OUT lockname)), s')) \/
  (deadline_open deadline (now_at w (ticks s)) /\
   exists l' n' lw' s',
     lock_loop w (S fuel) lockname pid sr deadline l n lw s
     = lock_loop w fuel lockname pid sr deadline l' n' lw' s' /\
     truthy l' = false /\
     conns s' = S (conns s) /\
     sleeps (trace s') = S (sleeps (trace s))).
Proof.
  intros Hr Hl. cbn [lock_loop]. rewrite Hl.
  unfold lock_attempt, try_except, mbind, M_bind.
  destruct sr.
  - rewrite try_to_lock_refused_required by assumption.
    rewrite no_server_message_is_not_wrong_nonce.
    destruct (is_new_warning _ lw); simpl; rewrite Hl; simpl.
    all: unfold check_lock_deadline, mbind, M_bind; simpl.
    all: destruct deadline as [d|]; simpl.
    all: try destruct (Z.ltb_spec d (now_at w (ticks s))); simpl.
    all: first
      [ left; eexists; eexists; split; [reflexivity|];
        split; [assumption|reflexivity]
      | right; split; [first [exact I | assumption]|];
        do 4 eexists; split; [reflexivity|]; simpl; auto ].
  - rewrite try_to_lock_refused_optional by assumption. simpl.
    unfold check_lock_deadline, mbind, M_bind; simpl.
    destruct deadline as [d|]; simpl.
    all: try destruct (Z.ltb_spec d (now_at w (ticks s))); simpl.
    all: first
      [ left; eexists; eexists; split; [reflexivity|];
        split; [assumption|reflexivity]
      | right; split; [first [exact I | assumption]|];
        do 4 eexists; split; [reflexivity|]; simpl; auto ].
Qed.

Lemma lock_loop_refused w lockname pid sr :
  (forall k, on_connect (net_at w k) = Refused) ->
  forall fuel l n lw s,
    truthy l = false ->
    let run := lock_loop w fuel lockname pid sr None l n lw s in
    run.1 = Loops /\
    conns run.2 = (conns s + fuel)%nat /\
    sleeps (trace run.2) = (sleeps (trace s) + fuel)%nat.
Proof.
  intros Hr. induction fuel as [|fuel IH]; intros l n lw s Hl; cbv zeta.
  - simpl. rewrite Hl. simpl. repeat split; lia.
  - destruct (lock_loop_refused_step w fuel lockname pid sr None l n lw s)
      as [(d & s' & ? & _)|(_ & l' & n' & lw' & s' & -> & Hl' & Hc & Hs)];
      auto; [discriminate|].
    destruct (IH l' n' lw' s' Hl') as (-> & -> & ->).
    repeat split; lia.
Qed.

Lemma lock_loop_refused_outcome w lockname pid sr deadline :
  (forall k, on_connect (net_at w k) = Refused) ->
  forall fuel l n lw s,
    truthy l = false ->
    let run := lock_loop w fuel lockname pid sr deadline l n lw s in
    run.1 = Loops \/ run.1 = Raises (LockTimeout (LOCK_TIMED_OUT lockname)).
Proof.
  intros Hr. induction fuel as [|fuel IH]; intros l n lw s Hl; cbv zeta.
  - simpl. rewrite Hl. left. reflexivity.
  - destruct (lock_loop_refused_step w fuel lockname pid sr deadline l n lw s)
      as [(d & s' & _ & _ & ->)|(_ & l' & n' & lw' & s' & -> & Hl' & _)];
      auto.
Qed.

Lemma lock_refused_outcome w fuel lockname tmo sr s :
  (forall k, on_connect (net_at w k) = Refused) ->
  match (lock w fuel lockname tmo sr s).1 with
  | Returns _ => False
  | Raises (LockFailed _) => False
  | _ => True
  end.
Proof.
  intros Hr. unfold lock, mbind, M_bind.
  pose proof (get_deadline_post w tmo s) as P. unfold wp in P.
  destruct (get_deadline w tmo s) as [[dl|e|] s1]; simpl in *.
  - pose proof (lock_loop_refused_outcome w lockname (getpid w) sr dl Hr
                  fuel (ABool false) ANone None s1 eq_refl) as L.
    cbv zeta in L.
    destruct (lock_loop _ _ _ _ _ _ _ _ _ _) as [[r|e|] s2]; simpl in *.
    + destruct L; discriminate.
    + destruct L as [L|L]; [discriminate|]. injection L as ->. exact I.
    + exact I.
  - destruct P as (_ & _ & P). destruct e; auto.
  - exact I.
Qed.

Lemma lock_refused_without_timeout w fuel lockname sr s :
  (forall k, on_connect (net_at w k) = Refused) ->
  let run := lock w fuel lockname TNone sr s in
  run.1 = Loops /\
  conns run.2 = (conns s + fuel)%nat /\
  sleeps (trace run.2) = (sleeps (trace s) + fuel)%nat.
Proof.
  intros Hr. cbv zeta. rewrite lock_without_timeout.
  pose proof (lock_loop_refused w lockname (getpid w) sr Hr fuel
                (ABool false) ANone None s eq_refl) as L.
  cbv zeta in L. unfold mbind, M_bind.
  destruct (lock_loop _ _ _ _ _ _ _ _ _ _) as [[r|e|] s2]; simpl in *.
  all: destruct L as (L & ? & ?); try discriminate. auto.
Qed.

(** C1, on the code: with [server_required=False] and no server
    listening, one attempt logs a warning and reports not locked, but
    [lock] itself treats that as one more failed attempt. It never
    returns, whatever the timeout, and without a timeout it is still
    looping after any number of iterations, having opened one socket
    and slept once in each. *)
Theorem lock_optional_server_down_never_returns w fuel lockname s :
  (forall k, on_connect (net_at w k) = Refused) ->
  try_to_lock w lockname (getpid w) false s
  = (Returns (ABool false, ANone),
     State (S (conns s)) (ticks s)
       (EvLog LWarning (NO_SERVER_WARNING false) :: trace s)) /\
  (forall tmo r, (lock w fuel lockname tmo false s).1 <> Returns r) /\
  let run := lock w fuel lockname TNone false s in
  run.1 = Loops /\
  conns run.2 = (conns s + fuel)%nat /\
  sleeps (trace run.2) = (sleeps (trace s) + fuel)%nat.
Proof.
  intros Hr. split; [|split].
  - apply try_to_lock_refused_optional. apply Hr.
  - intros tmo r H.
    pose proof (lock_refused_outcome w fuel lockname tmo false s Hr) as P.
    rewrite H in P. exact P.
  - apply lock_refused_without_timeout. assumption.
Qed.

Lemma lock_optional_server_down_never_returns_witness :
  (lock w_down 3 "lock1" TNone false initial).1 = Loops.
Proof.
  apply (lock_optional_server_down_never_returns w_down 3 "lock1" initial).
  intros k. reflexivity.
Defined.

(** C2, on the code: with [server_required=True] and no server
    listening, one attempt raises [LockFailed] with the message that
    there is no lock server, but the loop of [lock] catches it, since
    the message does not name a nonce mismatch. [lock] never raises
    [LockFailed], whatever the timeout, and without a timeout it is
    still looping after any number of iterations, having opened one
    socket and slept once in each. *)
Theorem lock_required_server_down_retries w fuel lockname s :
  (forall k, on_connect (net_at w k) = Refused) ->
  try_to_lock w lockname (getpid w) true s
  = (Raises (LockFailed NO_SERVER_MESSAGE),
     State (S (conns s)) (ticks s)
       (EvLog LError NO_SERVER_MESSAGE :: trace s)) /\
  (forall tmo msg,
      (lock w fuel lockname tmo true s).1 <> Raises (LockFailed msg)) /\
  let run := lock w fuel lockname TNone true s in
  run.1 = Loops /\
  conns run.2 = (conns s + fuel)%nat /\
  sleeps (trace run.2) = (sleeps (trace s) + fuel)%nat.
Proof.
  intros Hr. split; [|split].
  - apply try_to_lock_refused_required. apply Hr.
  - intros tmo msg H.
    pose proof (lock_refused_outcome w fuel lockname tmo true s Hr) as P.
    rewrite H in P. exact P.
  - apply lock_refused_without_timeout. assumption.
Qed.

Lemma lock_required_server_down_retries_witness :
  (lock w_down 3 "lock1" TNone true initial).1 = Loops
  /\ conns (lock w_down 3 "lock1" TNone true initial).2 = 3%nat
  /\ sleeps (trace (lock w_down 3 "lock1" TNone true initial).2) = 3%nat.
Proof.
  apply (lock_required_server_down_retries w_down 3 "lock1" initial).
  intros k. reflexivity.
Defined.

(** ** Replies that cannot be parsed, and the deadline of [unlock] *)

Lemma unlock_loop_done w fuel lockname nonce pid sr deadline lw s :
  unlock_loop w fuel lockname nonce pid sr deadline false lw s
  = (Returns false, s).
Proof. destruct fuel; reflexivity. Qed.

(** C4, on the code: after a reply that cannot be parsed, a lock
    attempt logs the failure and reports not locked, which sends the
    loop of [lock] round again. An unlock attempt logs the failure too
    but sets [is_locked] to [False], so the loop of [unlock] ends and
    [unlock] reports the lock released after that single attempt. *)
Theorem unlock_unparseable_reply_reports_released
    w fuel lockname nonce pid sr s e :
  net_at w (conns s) = Sock Connected Sent (Garbage e) ->
  try_to_lock w lockname pid sr s
  = (Returns (ABool false, ANone),
     State (S (conns s)) (ticks s)
       (EvTraceback e :: EvSend (lock_request lockname pid) :: trace s)) /\
  try_to_unlock w lockname nonce pid sr s
  = (Returns false,
     State (S (conns s)) (ticks s)
       (EvTraceback e
        :: EvSend (unlock_request lockname nonce pid) :: trace s)) /\
  unlock w (S fuel) lockname nonce pid TNone sr s
  = (Returns true,
     State (S (conns s)) (ticks s)
       (EvTraceback e
        :: EvSend (unlock_request lockname nonce pid) :: trace s)).
Proof.
  intros H. split; [|split].
  - apply try_to_lock_garbage. assumption.
  - apply try_to_unlock_garbage. assumption.
  - unfold unlock. unfold mbind at 1 2. unfold M_bind at 1 2.
    rewrite get_deadline_none. cbn [unlock_loop].
    unfold unlock_attempt, try_except, mbind, M_bind.
    rewrite (try_to_unlock_garbage w _ _ _ _ e) by assumption.
    simpl. rewrite unlock_loop_done. reflexivity.
Qed.

Lemma unlock_unparseable_reply_reports_released_witness :
  (unlock w_garbled 1 "lock1" (AStr "abc123") 4242 TNone true
     (State 1 0 [])).1 = Returns true.
Proof.
  rewrite (proj2 (proj2 (unlock_unparseable_reply_reports_released
                           w_garbled 0 "lock1" (AStr "abc123") 4242 true
                           (State 1 0 []) (OtherError "SyntaxError")
                           eq_refl))).
  reflexivity.
Defined.

(** C7, on the code: with a deadline, an iteration of [unlock] whose
    attempt leaves the lock held and that finds the clock past the
    deadline logs the timeout and then raises [NameError], because the
    argument of the [LockTimeout] it is about to raise is a name that
    is not bound. [unlock] never raises [LockTimeout]. *)
Theorem unlock_deadline_raises_name_error w fuel lockname nonce pid sr :
  (forall d lw s r s1,
      unlock_attempt w lockname nonce pid sr true lw s = (Returns r, s1) ->
      r.1 = true ->
      d < now_at w (ticks s1) ->
      unlock_loop w (S fuel) lockname nonce pid sr (Some d) true lw s
      = (Raises (NameError "warning_msg"),
         State (conns s1) (S (ticks s1))
           (EvLog LWarning (UNLOCK_TIMED_OUT lockname) :: trace s1))) /\
  (forall tmo s msg,
      (unlock w fuel lockname nonce pid tmo sr s).1
      <> Raises (LockTimeout msg)).
Proof.
  split.
  - intros d lw s r s1 Ha Hr Hd.
    cbn [unlock_loop]. unfold mbind, M_bind. rewrite Ha.
    rewrite Hr. simpl. unfold check_unlock_deadline, mbind, M_bind, now.
    simpl. destruct (Z.ltb_spec d (now_at w (ticks s1))); [reflexivity|lia].
  - intros tmo s msg H.
    pose proof (unlock_post w fuel lockname nonce pid tmo sr s) as P.
    unfold wp, unlock_result in P. rewrite H in P.
    destruct P as (_ & _ & P). exact P.
Qed.

Lemma unlock_deadline_raises_name_error_witness :
  let s := State 1 1 [] in
  let s1 := (unlock_attempt w_stuck "lock1" (AStr "abc123") 4242 true true
               None s).2 in
  unlock_loop w_stuck 1 "lock1" (AStr "abc123") 4242 true (Some 1000) true
    None s
  = (Raises (NameError "warning_msg"),
     State (conns s1) (S (ticks s1))
       (EvLog LWarning (UNLOCK_TIMED_OUT "lock1") :: trace s1)).
Proof.
  cbv zeta.
  eapply (proj1 (unlock_deadline_raises_name_error w_stuck 0 "lock1"
                   (AStr "abc123") 4242 true)).
  - vm_compute. reflexivity.
  - reflexivity.
  - vm_compute. reflexivity.
Defined.

(** ** Single attempts, continued *)

Lemma check_lock_response_dict lockname d s :
  check_lock_response lockname (PDict d) s
  = (match d !! OK_KEY with
     | None => Raises (KeyError OK_KEY)
     | Some ok =>
         if truthy ok then
           match d !! ACTION_KEY with
           | None => Raises (KeyError ACTION_KEY)
           | Some a =>
               if py_eq a (AStr LOCK_ACTION) then
                 match d !! LOCKNAME_KEY with
                 | None => Raises (KeyError LOCKNAME_KEY)
                 | Some name =>
                     if py_eq name (AStr lockname) then
                       match d !! NONCE_KEY with
                       | None => Raises (KeyError NONCE_KEY)
                       | Some n => Returns (ABool true, n)
                       end
                     else
                       Raises (LockFailed
                                 (REJECTED_LOCK_MESSAGE lockname (reason d)))
                 end
               else
                 Raises (LockFailed
                           (REJECTED_LOCK_MESSAGE lockname (reason d)))
           end
         else Raises (LockFailed (REJECTED_LOCK_MESSAGE lockname (reason d)))
     end, s).
Proof.
  unfold check_lock_response, reason, getitem, has_key.
  unfold mbind, M_bind, mret, M_ret, raise.
  destruct (d !! OK_KEY) as [ok|]; simpl; [|reflexivity].
  destruct (truthy ok) eqn:Hok; simpl.
  - destruct (d !! ACTION_KEY) as [a|]; simpl; [|reflexivity].
    destruct (py_eq a (AStr LOCK_ACTION)); simpl.
    + destruct (d !! LOCKNAME_KEY) as [x|]; simpl; [|reflexivity].
      destruct (py_eq x (AStr lockname)); simpl.
      * destruct (d !! NONCE_KEY); reflexivity.
      * destruct (d !! MESSAGE_KEY); reflexivity.
    + destruct (d !! MESSAGE_KEY); reflexivity.
  - rewrite Hok. destruct (d !! MESSAGE_KEY); reflexivity.
Qed.

Lemma try_to_lock_reply w lockname pid sr d s :
  net_at w (conns s) = reply d ->
  try_to_lock w lockname pid sr s
  = ((check_lock_response lockname (PDict d) s).1,
     State (S (conns s)) (ticks s)
       (EvSend (lock_request lockname pid) :: trace s)).
Proof.
  intros H. unfold try_to_lock, connect_to_server, open_socket.
  unfold mbind, M_bind. simpl. rewrite H. simpl.
  rewrite !check_lock_response_dict.
  repeat case_match; reflexivity.
Qed.

Lemma try_to_lock_granted w lockname pid sr d n s :
  net_at w (conns s) = reply d ->
  grants d lockname = true ->
  d !! NONCE_KEY = Some n ->
  try_to_lock w lockname pid sr s
  = (Returns (ABool true, n),
     State (S (conns s)) (ticks s)
       (EvSend (lock_request lockname pid) :: trace s)).
Proof.
  intros H Hg Hn. rewrite (try_to_lock_reply w _ _ _ d) by assumption.
  rewrite check_lock_response_dict. simpl.
  unfold grants, field_is in Hg.
  destruct (d !! OK_KEY) as [ok|]; [|discriminate].
  destruct (truthy ok); [|discriminate].
  destruct (d !! ACTION_KEY) as [a|]; [|discriminate].
  destruct (py_eq a (AStr LOCK_ACTION)); [|discriminate].
  destruct (d !! LOCKNAME_KEY) as [x|]; [|discriminate].
  destruct (py_eq x (AStr lockname)); [|discriminate].
  rewrite Hn. reflexivity.
Qed.

(** X2: when the reply to one lock attempt parses as a dict, the
    attempt reports the lock taken, with nonce [n], exactly when the
    reply has ok true, action ['lock'], the lock name that was asked
    for and [n] under the nonce key. It never reports not locked; a
    granting reply without a nonce raises [KeyError]. *)
Theorem try_to_lock_accepts_iff w lockname pid sr s d :
  net_at w (conns s) = reply d ->
  (forall n,
      (try_to_lock w lockname pid sr s).1 = Returns (ABool true, n)
      <-> grants d lockname = true /\ d !! NONCE_KEY = Some n) /\
  (forall l n,
      (try_to_lock w lockname pid sr s).1 = Returns (l, n) ->
      l = ABool true) /\
  (grants d lockname = true -> d !! NONCE_KEY = None ->
   (try_to_lock w lockname pid sr s).1 = Raises (KeyError NONCE_KEY)).
Proof.
  intros H. rewrite (try_to_lock_reply w _ _ _ d) by assumption. simpl.
  rewrite check_lock_response_dict. simpl.
  unfold grants, field_is.
  destruct (d !! OK_KEY) as [ok|]; simpl;
    [|repeat split; intros; try discriminate; intuition discriminate].
  destruct (truthy ok); simpl;
    [|repeat split; intros; try discriminate; intuition discriminate].
  destruct (d !! ACTION_KEY) as [a|]; simpl;
    [|repeat split; intros; try discriminate; intuition discriminate].
  destruct (py_eq a (AStr LOCK_ACTION)); simpl;
    [|repeat split; intros; try discriminate; intuition discriminate].
  destruct (d !! LOCKNAME_KEY) as [x|]; simpl;
    [|repeat split; intros; try discriminate; intuition discriminate].
  destruct (py_eq x (AStr lockname)); simpl;
    [|repeat split; intros; try discriminate; intuition discriminate].
  destruct (d !! NONCE_KEY) as [m|]; simpl.
  - repeat split; intros; try discriminate; try congruence.
    destruct H0 as [_ H0]. congruence.
  - repeat split; intros; try discriminate; intuition discriminate.
Qed.

Lemma try_to_lock_accepts_iff_witness :
  (try_to_lock w_free "lock1" 4242 true initial).1
  = Returns (ABool true, AStr "abc123").
Proof.
  apply (try_to_lock_accepts_iff w_free "lock1" 4242 true initial
           (grant "lock1" "abc123") eq_refl).
  split; vm_compute; reflexivity.
Defined.

(** ** Grants and round trips *)

Lemma lock_loop_granted w fuel lockname pid sr deadline l0 n0 lw d n s :
  truthy l0 = false ->
  net_at w (conns s) = reply d ->
  grants d lockname = true ->
  d !! NONCE_KEY = Some n ->
  lock_loop w (S fuel) lockname pid sr deadline l0 n0 lw s
  = (Returns (ABool true, n),
     State (S (conns s)) (ticks s)
       (EvSend (lock_request lockname pid) :: trace s)).
Proof.
  intros Hl H Hg Hn. cbn [lock_loop]. rewrite Hl.
  unfold lock_attempt, try_except, mbind, M_bind.
  rewrite (try_to_lock_granted w _ _ _ d n) by assumption.
  simpl. rewrite lock_loop_done by reflexivity. reflexivity.
Qed.

Lemma try_to_unlock_confirmed w lockname nonce pid sr d s :
  net_at w (conns s) = reply d ->
  confirms_release d nonce = true ->
  try_to_unlock w lockname nonce pid sr s
  = (Returns false,
     State (S (conns s)) (ticks s)
       (EvSend (unlock_request lockname nonce pid) :: trace s)).
Proof.
  intros H Hc. rewrite (try_to_unlock_reply w _ _ _ _ d) by assumption.
  rewrite check_unlock_response_dict. rewrite Hc. reflexivity.
Qed.

Lemma unlock_loop_confirmed w fuel lockname nonce pid sr deadline lw d s :
  net_at w (conns s) = reply d ->
  confirms_release d nonce = true ->
  unlock_loop w (S fuel) lockname nonce pid sr deadline true lw s
  = (Returns false,
     State (S (conns s)) (ticks s)
       (EvSend (unlock_request lockname nonce pid) :: trace s)).
Proof.
  intros H Hc. cbn [unlock_loop].
  unfold unlock_attempt, try_except, mbind, M_bind.
  rewrite (try_to_unlock_confirmed w _ _ _ _ d) by assumption.
  simpl. rewrite unlock_loop_done. reflexivity.
Qed.

Lemma lock_first_reply_grants w fuel lockname tmo sr s dl s1 d n :
  get_deadline w tmo s = (Returns dl, s1) ->
  net_at w (conns s) = reply d ->
  grants d lockname = true ->
  d !! NONCE_KEY = Some n ->
  lock w (S fuel) lockname tmo sr s
  = (Returns (ABool true, n, getpid w),
     State (S (conns s)) (ticks s1)
       (EvSend (lock_request lockname (getpid w)) :: trace s)).
Proof.
  intros Hd H Hg Hn.
  pose proof (get_deadline_post w tmo s) as P. unfold wp in P.
  rewrite Hd in P. simpl in P. destruct P as (Hc & Ht & _).
  unfold lock. unfold mbind at 1. unfold M_bind at 1. rewrite Hd.
  unfold mbind, M_bind.
  rewrite (lock_loop_granted w fuel lockname (getpid w) sr dl (ABool false)
             ANone None d n s1); try assumption; try reflexivity.
  - simpl. rewrite Hc, Ht. reflexivity.
  - rewrite Hc. assumption.
Qed.

Lemma unlock_first_reply_confirms w fuel lockname nonce pid sr s d :
  net_at w (conns s) = reply d ->
  confirms_release d nonce = true ->
  unlock w (S fuel) lockname nonce pid TNone sr s
  = (Returns true,
     State (S (conns s)) (ticks s)
       (EvSend (unlock_request lockname nonce pid) :: trace s)).
Proof.
  intros H Hc. unfold unlock. unfold mbind at 1 2. unfold M_bind at 1 2.
  rewrite get_deadline_none.
  rewrite (unlock_loop_confirmed w fuel lockname nonce pid sr None None d)
    by assumption.
  reflexivity.
Qed.

(** X12: the deadline is looked at only after a failed attempt. When
    the first reply grants the lock, [lock] returns at once with the
    granted nonce and the pid, for any timeout that [get_deadline]
    accepts, even one that has already expired: one request, no sleep,
    and no reading of the clock after the one that set the deadline. *)
Theorem lock_granted_at_once w fuel lockname tmo sr s dl s1 d n :
  get_deadline w tmo s = (Returns dl, s1) ->
  net_at w (conns s) = reply d ->
  grants d lockname = true ->
  d !! NONCE_KEY = Some n ->
  lock w (S fuel) lockname tmo sr s
  = (Returns (ABool true, n, getpid w),
     State (S (conns s)) (ticks s1)
       (EvSend (lock_request lockname (getpid w)) :: trace s)).
Proof. apply lock_first_reply_grants. Qed.

Lemma lock_granted_at_once_witness :
  lock w_free 1 "lock1" (TDelta (-500)) true initial
  = (Returns (ABool true, AStr "abc123", 4242),
     State 1 1 [EvSend (lock_request "lock1" 4242)]).
Proof.
  apply (lock_granted_at_once w_free 0 "lock1" (TDelta (-500)) true
           initial (Some 500) (State 0 1 [])
           (grant "lock1" "abc123") (AStr "abc123")).
  - vm_compute. reflexivity.
  - reflexivity.
  - vm_compute. reflexivity.
  - vm_compute. reflexivity.
Defined.

(** X1: a round trip. If the next reply grants the lock with nonce [n]
    and the reply after it confirms the release of [n], then [lock]
    followed by [unlock] with the nonce and pid that [lock] returned
    ends with [unlock] returning [True], after exactly two requests and
    no sleep. *)
Theorem lock_then_unlock_round_trip w fuel fuel' lockname sr s d n d' :
  net_at w (conns s) = reply d ->
  grants d lockname = true ->
  d !! NONCE_KEY = Some n ->
  net_at w (S (conns s)) = reply d' ->
  confirms_release d' n = true ->
  (lock w (S fuel) lockname TNone sr
     ≫= λ r, unlock w (S fuel') lockname r.1.2 r.2 TNone sr) s
  = (Returns true,
     State (S (S (conns s))) (ticks s)
       (EvSend (unlock_request lockname n (getpid w))
        :: EvSend (lock_request lockname (getpid w)) :: trace s)).
Proof.
  intros H Hg Hn H' Hc. unfold mbind at 1. unfold M_bind at 1.
  rewrite (lock_first_reply_grants w fuel lockname TNone sr s None s d n);
    try assumption; try reflexivity.
  cbn [fst snd].
  rewrite (unlock_first_reply_confirms w fuel' lockname n (getpid w) sr _ d');
    [reflexivity|assumption|assumption].
Qed.

Lemma lock_then_unlock_round_trip_witness :
  (lock w_free 1 "lock1" TNone true
     ≫= λ r, unlock w_free 1 "lock1" r.1.2 r.2 TNone true) initial
  = (Returns true,
     State 2 0
       [EvSend (unlock_request "lock1" (AStr "abc123") 4242);
        EvSend (lock_request "lock1" 4242)]).
Proof.
  apply (lock_then_unlock_round_trip w_free 0 0 "lock1" true initial
           (grant "lock1" "abc123") (AStr "abc123")
           (released "lock2" "abc123")).
  - reflexivity.
  - vm_compute. reflexivity.
  - vm_compute. reflexivity.
  - reflexivity.
  - vm_compute. reflexivity.
Defined.

(** ** What [unlock] returns *)

Lemma unlock_loop_returns_false w lockname nonce pid sr deadline :
  forall fuel l lw s b s',
    unlock_loop w fuel lockname nonce pid sr deadline l lw s
    = (Returns b, s') ->
    b = false.
Proof.
  induction fuel as [|fuel IH]; intros l lw s b s'; destruct l;
    cbn [unlock_loop]; try (intros H; inversion H; reflexivity; fail).
  unfold mbind, M_bind.
  destruct (unlock_attempt w lockname nonce pid sr true lw s)
    as [[r|e|] s1]; try discriminate.
  destruct r as [[] lw1]; cbn [fst snd when]; unfold mbind, M_bind.
  - destruct (check_unlock_deadline w lockname deadline s1)
        as [[[]|e|] s2]; try discriminate.
    simpl. apply IH.
  - simpl. apply IH.
Qed.

(** X13: whenever [unlock] returns, it returns [True]: a release that
    did not go through never shows as a [False] result, only as an
    exception or as a call that is still retrying. *)
Theorem unlock_returns_true w fuel lockname nonce pid tmo sr s b s' :
  unlock w fuel lockname nonce pid tmo sr s = (Returns b, s') ->
  b = true.
Proof.
  unfold unlock. unfold mbind at 1. unfold M_bind at 1.
  destruct (get_deadline w tmo s) as [[dl|e|] s1]; try discriminate.
  unfold mbind, M_bind.
  destruct (unlock_loop w fuel lockname nonce pid sr dl true None s1)
    as [[l|e|] s2] eqn:E; try discriminate.
  apply unlock_loop_returns_false in E. subst l.
  intros H. inversion H. reflexivity.
Qed.

Lemma unlock_returns_true_witness : true = true.
Proof.
  apply (unlock_returns_true w_free 1 "lock1" (AStr "abc123") 4242 TNone true
           (State 1 0 []) true
           (unlock w_free 1 "lock1" (AStr "abc123") 4242 TNone true
              (State 1 0 [])).2).
  vm_compute. reflexivity.
Defined.

(** ** Replies of the wrong shape and socket errors *)

Lemma try_to_lock_malformed w lockname pid sr p e s :
  net_at w (conns s) = Sock Connected Sent (Value p) ->
  malformed p = Some e ->
  try_to_lock w lockname pid sr s
  = (Raises e,
     State (S (conns s)) (ticks s)
       (EvSend (lock_request lockname pid) :: trace s)).
Proof.
  intros H Hm. unfold try_to_lock, connect_to_server, open_socket.
  unfold mbind, M_bind. simpl. rewrite H. simpl.
  destruct p as [d|a]; simpl in *.
  - rewrite check_lock_response_dict.
    destruct (d !! OK_KEY); [discriminate|]. congruence.
  - unfold check_lock_response, getitem, mbind, M_bind, raise. simpl.
    congruence.
Qed.

Lemma try_to_unlock_malformed w lockname nonce pid sr p e s :
  net_at w (conns s) = Sock Connected Sent (Value p) ->
  malformed p = Some e ->
  try_to_unlock w lockname nonce pid sr s
  = (Raises e,
     State (S (conns s)) (ticks s)
       (EvSend (unlock_request lockname nonce pid) :: trace s)).
Proof.
  intros H Hm. unfold try_to_unlock, connect_to_server, open_socket.
  unfold mbind, M_bind. simpl. rewrite H. simpl.
  destruct p as [d|a]; simpl in *.
  - rewrite check_unlock_response_dict.
    unfold confirms_release, field_is.
    destruct (d !! OK_KEY); [discriminate|]. simpl. congruence.
  - unfold check_unlock_response, getitem, mbind, M_bind, raise. simpl.
    congruence.
Qed.

(** X3: a reply that parses but is not a dict, or is a dict without an
    ok flag, is not treated as a failed attempt. The [TypeError] or
    [KeyError] of the lookup is logged with its traceback and leaves
    [lock], and likewise [unlock], at once: one request, no sleep, no
    retry. *)
Theorem malformed_reply_is_fatal
    w fuel lockname nonce pid sr deadline l n lw s p e :
  net_at w (conns s) = Sock Connected Sent (Value p) ->
  malformed p = Some e ->
  truthy l = false ->
  lock_loop w (S fuel) lockname pid sr deadline l n lw s
  = (Raises e,
     State (S (conns s)) (ticks s)
       (EvTraceback e :: EvSend (lock_request lockname pid) :: trace s)) /\
  unlock_loop w (S fuel) lockname nonce pid sr deadline true lw s
  = (Raises e,
     State (S (conns s)) (ticks s)
       (EvTraceback e
        :: EvSend (unlock_request lockname nonce pid) :: trace s)).
Proof.
  intros H Hm Hl. split.
  - cbn [lock_loop]. rewrite Hl.
    unfold lock_attempt, try_except, mbind, M_bind.
    rewrite (try_to_lock_malformed w _ _ _ p e) by assumption.
    destruct p as [d|a]; simpl in Hm.
    + destruct (d !! OK_KEY); [discriminate|]. injection Hm as <-.
      reflexivity.
    + injection Hm as <-. reflexivity.
  - cbn [unlock_loop].
    unfold unlock_attempt, try_except, mbind, M_bind.
    rewrite (try_to_unlock_malformed w _ _ _ _ p e) by assumption.
    destruct p as [d|a]; simpl in Hm.
    + destruct (d !! OK_KEY); [discriminate|]. injection Hm as <-.
      reflexivity.
    + injection Hm as <-. reflexivity.
Qed.

Lemma malformed_reply_is_fatal_witness :
  (lock_loop (world_of (fun _ => Sock Connected Sent (Value (PAtom ANone))))
     1 "lock1" 4242 true None (ABool false) ANone None initial).1
  = Raises TypeError.
Proof.
  rewrite (proj1 (malformed_reply_is_fatal
                    (world_of (fun _ => Sock Connected Sent
                                          (Value (PAtom ANone))))
                    0 "lock1" ANone 4242 true None (ABool false) ANone None
                    initial (PAtom ANone) TypeError eq_refl eq_refl eq_refl)).
  reflexivity.
Defined.

Lemma try_to_lock_socket_error w lockname pid sr e s :
  socket_error (net_at w (conns s)) = Some e ->
  try_to_lock w lockname pid sr s
  = (Raises (exn_of_sockerr e),
     State (S (conns s)) (ticks s)
       (sent_if (net_at w (conns s)) (lock_request lockname pid) (trace s))).
Proof.
  unfold socket_error, sent_if, try_to_lock, connect_to_server, open_socket.
  unfold mbind, M_bind. simpl.
  destruct (net_at w (conns s)) as [c sd r]; simpl.
  destruct c; [destruct sd; [destruct r| |]| |]; simpl;
    intros H; try discriminate; injection H as ->; reflexivity.
Qed.

(** While the deadline is open, the check passes and the loop sleeps. *)
Lemma lock_loop_goes_round w lockname deadline s :
  deadline_open deadline (now_at w (ticks s)) ->
  exists s',
    (check_lock_deadline w lockname deadline ≫= λ _, sleep) s
    = (Returns tt, s') /\
    conns s' = conns s /\
    trace s' = EvSleep :: trace s.
Proof.
  intros Hopen. unfold check_lock_deadline, mbind, M_bind, now.
  destruct deadline as [d|]; simpl in *.
  - destruct (Z.ltb_spec d (now_at w (ticks s))); [lia|].
    simpl. eexists. split; [reflexivity|]. auto.
  - eexists. split; [reflexivity|]. auto.
Qed.

Lemma lock_attempt_raised w lockname pid sr l n lw s e s1 :
  try_to_lock w lockname pid sr s = (Raises e, s1) ->
  lock_attempt w lockname pid sr l n lw s
  = match e with
    | TimeoutError m =>
        (Returns (l, n, lw),
         State (conns s1) (ticks s1) (EvLog LDebug m :: trace s1))
    | LockFailed m =>
        if contains WRONG_NONCE m then (Raises e, s1)
        else if is_new_warning m lw then
          (Returns (l, n, Some m),
           State (conns s1) (ticks s1) (EvLog LDebug m :: trace s1))
        else (Returns (l, n, lw), s1)
    | _ =>
        (Raises e,
         State (conns s1) (ticks s1) (EvTraceback e :: trace s1))
    end.
Proof.
  intros H. unfold lock_attempt, try_except, mbind, M_bind. rewrite H.
  destruct e; try reflexivity.
  destruct (contains WRONG_NONCE msg); [reflexivity|].
  destruct (is_new_warning msg lw); reflexivity.
Qed.

Lemma lock_loop_retry w fuel lockname pid sr deadline l n lw s r s1 :
  truthy l = false ->
  lock_attempt w lockname pid sr l n lw s = (Returns r, s1) ->
  truthy r.1.1 = false ->
  deadline_open deadline (now_at w (ticks s1)) ->
  exists s',
    lock_loop w (S fuel) lockname pid sr deadline l n lw s
    = lock_loop w fuel lockname pid sr deadline r.1.1 r.1.2 r.2 s' /\
    conns s' = conns s1 /\
    trace s' = EvSleep :: trace s1.
Proof.
  intros Hl Ha Hr Hopen. cbn [lock_loop]. rewrite Hl.
  unfold mbind at 1. unfold M_bind at 1. rewrite Ha.
  rewrite Hr. cbn [negb when].
  destruct (lock_loop_goes_round w lockname deadline s1 Hopen)
    as (s' & E & Hc & Ht).
  unfold mbind at 1. unfold M_bind at 1. rewrite E.
  exists s'. auto.
Qed.

Lemma lock_loop_raised w fuel lockname pid sr deadline l n lw s e s1 :
  truthy l = false ->
  lock_attempt w lockname pid sr l n lw s = (Raises e, s1) ->
  lock_loop w (S fuel) lockname pid sr deadline l n lw s = (Raises e, s1).
Proof.
  intros Hl Ha. cbn [lock_loop]. rewrite Hl.
  unfold mbind, M_bind. rewrite Ha. reflexivity.
Qed.

(** X5: an error of the socket itself, on connect, send or receive. A
    timeout ([TimeoutError]) is logged and the loop of [lock] sleeps
    and tries again with its variables unchanged; any other socket
    error is logged with its traceback and leaves [lock] at once. *)
Theorem socket_timeout_retried_other_errors_fatal
    w fuel lockname pid sr deadline l n lw s e :
  socket_error (net_at w (conns s)) = Some e ->
  truthy l = false ->
  let tr :=
    sent_if (net_at w (conns s)) (lock_request lockname pid) (trace s) in
  match e with
  | ETimedOut m =>
      deadline_open deadline (now_at w (ticks s)) ->
      exists s',
        lock_loop w (S fuel) lockname pid sr deadline l n lw s
        = lock_loop w fuel lockname pid sr deadline l n lw s' /\
        conns s' = S (conns s) /\
        trace s' = EvSleep :: EvLog LDebug m :: tr
  | EOther name =>
      lock_loop w (S fuel) lockname pid sr deadline l n lw s
      = (Raises (OtherError name),
         State (S (conns s)) (ticks s)
           (EvTraceback (OtherError name) :: tr))
  end.
Proof.
  intros He Hl. cbv zeta.
  pose proof (try_to_lock_socket_error w lockname pid sr e s He) as T.
  pose proof (lock_attempt_raised w lockname pid sr l n lw s _ _ T) as A.
  destruct e as [m|name]; simpl in A.
  - intros Hopen.
    destruct (lock_loop_retry w fuel lockname pid sr deadline l n lw s _ _
                Hl A Hl Hopen) as (s' & E & Hc & Ht).
    exists s'. auto.
  - apply lock_loop_raised; assumption.
Qed.

Lemma socket_timeout_retried_other_errors_fatal_witness :
  (lock_loop
     (world_of (fun _ => Sock (ConnectError (EOther "OSError")) Sent
                           (Garbage TypeError)))
     1 "lock1" 4242 true None (ABool false) ANone None initial).1
  = Raises (OtherError "OSError").
Proof.
  rewrite (socket_timeout_retried_other_errors_fatal
             (world_of (fun _ => Sock (ConnectError (EOther "OSError")) Sent
                                   (Garbage TypeError)))
             0 "lock1" 4242 true None (ABool false) ANone None initial
             (EOther "OSError") eq_refl eq_refl).
  reflexivity.
Defined.

Lemma probably_down_is_not_wrong_nonce :
  contains WRONG_NONCE PROBABLY_DOWN = false.
Proof. vm_compute. reflexivity. Qed.

(** X6: a broken pipe while sending the lock request. The attempt logs
    a warning and raises [LockFailed] saying the server is probably
    down; the loop of [lock] takes it for an ordinary rejection: it
    sleeps and tries again, and does not raise. *)
Theorem broken_pipe_is_retried w fuel lockname pid sr deadline l n lw s msg :
  on_connect (net_at w (conns s)) = Connected ->
  on_send (net_at w (conns s)) = BrokenPipe msg ->
  truthy l = false ->
  deadline_open deadline (now_at w (ticks s)) ->
  try_to_lock w lockname pid sr s
  = (Raises (LockFailed PROBABLY_DOWN),
     State (S (conns s)) (ticks s) (EvLog LWarning msg :: trace s)) /\
  exists lw' s',
    lock_loop w (S fuel) lockname pid sr deadline l n lw s
    = lock_loop w fuel lockname pid sr deadline l n lw' s' /\
    conns s' = S (conns s) /\
    sleeps (trace s') = S (sleeps (trace s)).
Proof.
  intros Hc Hs Hl Hopen.
  assert (T : try_to_lock w lockname pid sr s
              = (Raises (LockFailed PROBABLY_DOWN),
                 State (S (conns s)) (ticks s)
                   (EvLog LWarning msg :: trace s))).
  { unfold try_to_lock, connect_to_server, open_socket.
    unfold mbind, M_bind. simpl. rewrite Hc. simpl. rewrite Hs. reflexivity. }
  split; [exact T|].
  pose proof (lock_attempt_raised w lockname pid sr l n lw s _ _ T) as A.
  cbv beta iota in A. rewrite probably_down_is_not_wrong_nonce in A.
  destruct (is_new_warning PROBABLY_DOWN lw).
  - destruct (lock_loop_retry w fuel lockname pid sr deadline l n lw s _ _
                Hl A Hl Hopen) as (s' & E & Hc' & Ht).
    exists (Some PROBABLY_DOWN), s'. split; [exact E|].
    split; [exact Hc'|]. rewrite Ht. reflexivity.
  - destruct (lock_loop_retry w fuel lockname pid sr deadline l n lw s _ _
                Hl A Hl Hopen) as (s' & E & Hc' & Ht).
    exists lw, s'. split; [exact E|].
    split; [exact Hc'|]. rewrite Ht. reflexivity.
Qed.

Lemma broken_pipe_is_retried_witness :
  try_to_lock
    (world_of (fun _ => Sock Connected (BrokenPipe "Broken pipe")
                          (Garbage TypeError)))
    "lock1" 4242 true initial
  = (Raises (LockFailed PROBABLY_DOWN),
     State 1 0 [EvLog LWarning "Broken pipe"]).
Proof.
  apply (broken_pipe_is_retried
           (world_of (fun _ => Sock Connected (BrokenPipe "Broken pipe")
                                 (Garbage TypeError)))
           0 "lock1" 4242 true None (ABool false) ANone None initial
           "Broken pipe" eq_refl eq_refl eq_refl I).
Defined.

(** ** The test for a nonce mismatch *)

Lemma prefix_app_l sub s t :
  String.prefix sub s = true -> String.prefix sub (s +:+ t) = true.
Proof.
  revert s. induction sub as [|a sub IH]; intros s H.
  - destruct (s +:+ t); reflexivity.
  - destruct s as [|b s]; [discriminate|].
    change (String b s +:+ t) with (String b (s +:+ t)).
    simpl in *. destruct (Ascii.ascii_dec a b); [|discriminate].
    apply IH. exact H.
Qed.

Lemma contains_app_l sub s t :
  contains sub s = true -> contains sub (s +:+ t) = true.
Proof.
  induction s as [|a s IH]; intros H.
  - cbn [contains] in H. rewrite orb_false_r in H.
    apply (prefix_app_l sub EmptyString t) in H.
    change (EmptyString +:+ t) with t in *.
    destruct t; cbn [contains]; rewrite H; reflexivity.
  - change (String a s +:+ t) with (String a (s +:+ t)).
    cbn [contains] in H. apply orb_true_iff in H. destruct H as [H|H].
    + apply (prefix_app_l sub (String a s) t) in H.
      change (String a s +:+ t) with (String a (s +:+ t)) in H.
      cbn [contains]. rewrite H. reflexivity.
    + cbn [contains]. rewrite (IH H). apply orb_true_r.
Qed.

Lemma wrong_nonce_in_lock_name lockname why :
  contains WRONG_NONCE lockname = true ->
  contains WRONG_NONCE (REJECTED_LOCK_MESSAGE lockname why) = true.
Proof.
  intros H. unfold REJECTED_LOCK_MESSAGE.
  do 2 apply contains_app_r. apply contains_app_l. exact H.
Qed.

(** X9: the test for a nonce mismatch looks at the whole rejection
    message, which quotes the lock name. For a lock whose name contains
    ['Wrong nonce'], any denial of the lock request, for whatever
    reason, leaves [lock] at once as [LockFailed] instead of being
    retried. *)
Theorem lock_name_with_wrong_nonce_makes_denials_fatal
    w fuel lockname pid sr deadline l n lw s d :
  contains WRONG_NONCE lockname = true ->
  net_at w (conns s) = reply d ->
  denies d = true ->
  truthy l = false ->
  lock_loop w (S fuel) lockname pid sr deadline l n lw s
  = (Raises (LockFailed (REJECTED_LOCK_MESSAGE lockname (reason d))),
     State (S (conns s)) (ticks s)
       (EvSend (lock_request lockname pid) :: trace s)).
Proof.
  intros Hn H Hd Hl.
  pose proof (try_to_lock_denied w lockname pid sr d s H Hd) as T.
  pose proof (lock_attempt_raised w lockname pid sr l n lw s _ _ T) as A.
  cbv beta iota in A. rewrite wrong_nonce_in_lock_name in A by assumption.
  apply lock_loop_raised; assumption.
Qed.

Lemma lock_name_with_wrong_nonce_makes_denials_fatal_witness :
  (lock_loop w_busy 1 "Wrong nonce" 4242 true None (ABool false) ANone None
     initial).1
  = Raises (LockFailed
              (REJECTED_LOCK_MESSAGE "Wrong nonce" "already locked")).
Proof.
  rewrite (lock_name_with_wrong_nonce_makes_denials_fatal w_busy 0
             "Wrong nonce" 4242 true None (ABool false) ANone None initial
             (deny LOCK_ACTION "lock1" "already locked")
             eq_refl eq_refl eq_refl eq_refl).
  reflexivity.
Defined.

(** ** The loop of [unlock], step by step *)

Lemma unlock_attempt_raised w lockname nonce pid sr l lw s e s1 :
  try_to_unlock w lockname nonce pid sr s = (Raises e, s1) ->
  unlock_attempt w lockname nonce pid sr l lw s
  = match e with
    | TimeoutError m =>
        (Returns (l, lw),
         State (conns s1) (ticks s1) (EvLog LDebug m :: trace s1))
    | LockFailed m =>
        if contains WRONG_NONCE m then (Raises e, s1)
        else if is_new_warning m lw then
          (Returns (l, Some m),
           State (conns s1) (ticks s1) (EvLog LDebug m :: trace s1))
        else (Returns (l, lw), s1)
    | _ =>
        (Raises e,
         State (conns s1) (ticks s1) (EvTraceback e :: trace s1))
    end.
Proof.
  intros H. unfold unlock_attempt, try_except, mbind, M_bind. rewrite H.
  destruct e; try reflexivity.
  destruct (contains WRONG_NONCE msg); [reflexivity|].
  destruct (is_new_warning msg lw); reflexivity.
Qed.

Lemma unlock_attempt_returned w lockname nonce pid sr l lw s b s1 :
  try_to_unlock w lockname nonce pid sr s = (Returns b, s1) ->
  unlock_attempt w lockname nonce pid sr l lw s = (Returns (b, lw), s1).
Proof.
  intros H. unfold unlock_attempt, try_except, mbind, M_bind. rewrite H.
  reflexivity.
Qed.

Lemma unlock_loop_goes_round w lockname deadline s :
  deadline_open deadline (now_at w (ticks s)) ->
  exists s',
    (check_unlock_deadline w lockname deadline ≫= λ _, sleep) s
    = (Returns tt, s') /\
    conns s' = conns s /\
    trace s' = EvSleep :: trace s.
Proof.
  intros Hopen. unfold check_unlock_deadline, mbind, M_bind, now.
  destruct deadline as [d|]; simpl in *.
  - destruct (Z.ltb_spec d (now_at w (ticks s))); [lia|].
    simpl. eexists. split; [reflexivity|]. auto.
  - eexists. split; [reflexivity|]. auto.
Qed.

Lemma unlock_loop_retry w fuel lockname nonce pid sr deadline lw s lw' s1 :
  unlock_attempt w lockname nonce pid sr true lw s = (Returns (true, lw'), s1) ->
  deadline_open deadline (now_at w (ticks s1)) ->
  exists s',
    unlock_loop w (S fuel) lockname nonce pid sr deadline true lw s
    = unlock_loop w fuel lockname nonce pid sr deadline true lw' s' /\
    conns s' = conns s1 /\
    trace s' = EvSleep :: trace s1.
Proof.
  intros Ha Hopen. cbn [unlock_loop].
  unfold mbind at 1. unfold M_bind at 1. rewrite Ha. cbn [fst snd when].
  destruct (unlock_loop_goes_round w lockname deadline s1 Hopen)
    as (s' & E & Hc & Ht).
  unfold mbind at 1. unfold M_bind at 1. rewrite E.
  exists s'. auto.
Qed.

Lemma unlock_loop_raised w fuel lockname nonce pid sr deadline lw s e s1 :
  unlock_attempt w lockname nonce pid sr true lw s = (Raises e, s1) ->
  unlock_loop w (S fuel) lockname nonce pid sr deadline true lw s
  = (Raises e, s1).
Proof.
  intros Ha. cbn [unlock_loop]. unfold mbind, M_bind. rewrite Ha.
  reflexivity.
Qed.

(** X10: the client's own check of the echoed nonce is not the fatal
    case. When the reply to an unlock request says ok and ['unlock']
    but echoes another nonce than the one sent, the attempt raises
    [LockFailed] with the reason the reply gives (or that the server
    did not say why); unless that message names a nonce mismatch, the
    loop of [unlock] sleeps and sends the request again. *)
Theorem unlock_retries_when_echoed_nonce_differs
    w fuel lockname nonce pid sr deadline lw s d echoed :
  net_at w (conns s) = reply d ->
  field_is d OK_KEY truthy = true ->
  field_is d ACTION_KEY (fun a => py_eq a (AStr UNLOCK_ACTION)) = true ->
  d !! NONCE_KEY = Some echoed ->
  py_eq echoed nonce = false ->
  contains WRONG_NONCE (REJECTED_UNLOCK_MESSAGE lockname (reason d)) = false ->
  deadline_open deadline (now_at w (ticks s)) ->
  (try_to_unlock w lockname nonce pid sr s).1
  = Raises (LockFailed (REJECTED_UNLOCK_MESSAGE lockname (reason d))) /\
  exists lw' s',
    unlock_loop w (S fuel) lockname nonce pid sr deadline true lw s
    = unlock_loop w fuel lockname nonce pid sr deadline true lw' s' /\
    conns s' = S (conns s) /\
    sleeps (trace s') = S (sleeps (trace s)).
Proof.
  intros H Hok Hact Hn Hne Hw Hopen.
  assert (T : try_to_unlock w lockname nonce pid sr s
              = (Raises (LockFailed
                           (REJECTED_UNLOCK_MESSAGE lockname (reason d))),
                 State (S (conns s)) (ticks s)
                   (EvSend (unlock_request lockname nonce pid) :: trace s))).
  { rewrite (try_to_unlock_reply w _ _ _ _ d) by assumption.
    rewrite check_unlock_response_dict.
    unfold confirms_release, field_is in *. rewrite Hn in *.
    destruct (d !! OK_KEY) as [ok|]; [|discriminate]. rewrite Hok.
    destruct (d !! ACTION_KEY) as [a|]; [|discriminate]. rewrite Hact.
    rewrite Hne. reflexivity. }
  split; [rewrite T; reflexivity|].
  pose proof (unlock_attempt_raised w lockname nonce pid sr true lw s _ _ T)
    as A.
  cbv beta iota in A. rewrite Hw in A.
  destruct (is_new_warning _ lw).
  - destruct (unlock_loop_retry w fuel lockname nonce pid sr deadline lw s
                _ _ A Hopen) as (s' & E & Hc' & Ht).
    eexists _, s'. split; [exact E|].
    split; [exact Hc'|]. rewrite Ht. reflexivity.
  - destruct (unlock_loop_retry w fuel lockname nonce pid sr deadline lw s
                _ _ A Hopen) as (s' & E & Hc' & Ht).
    eexists _, s'. split; [exact E|].
    split; [exact Hc'|]. rewrite Ht. reflexivity.
Qed.

Lemma unlock_retries_when_echoed_nonce_differs_witness :
  (try_to_unlock w_free "lock1" (AStr "other") 4242 true (State 1 0 [])).1
  = Raises (LockFailed (REJECTED_UNLOCK_MESSAGE "lock1" WHY_UNKNOWN)).
Proof.
  apply (unlock_retries_when_echoed_nonce_differs w_free 0 "lock1"
           (AStr "other") 4242 true None None (State 1 0 [])
           (released "lock2" "abc123") (AStr "abc123")).
  - reflexivity.
  - vm_compute. reflexivity.
  - vm_compute. reflexivity.
  - vm_compute. reflexivity.
  - reflexivity.
  - vm_compute. reflexivity.
  - exact I.
Defined.

(** ** A timeout of the wrong type *)

(** X7: a timeout that is neither [None], a timedelta nor a number is
    refused with [ValueError] before anything else happens: [lock] and
    [unlock] raise it without opening a socket, reading the clock or
    logging, and [locked] logs its traceback, raises it and never runs
    the managed block. *)
Theorem bad_timeout_is_refused_first
    w fuel lockname nonce pid sr type_name body s :
  lock w fuel lockname (TOther type_name) sr s
  = (Raises (ValueError (BAD_TIMEOUT type_name)), s) /\
  unlock w fuel lockname nonce pid (TOther type_name) sr s
  = (Raises (ValueError (BAD_TIMEOUT type_name)), s) /\
  locked w fuel (Some lockname) (TOther type_name) sr body s
  = (Raises (ValueError (BAD_TIMEOUT type_name)),
     State (conns s) (ticks s)
       (EvTraceback (ValueError (BAD_TIMEOUT type_name))
        :: EvCall CallLock :: trace s)).
Proof.
  split; [reflexivity|]. split; [reflexivity|].
  apply (locked_acquire_raises w fuel (Some lockname) (TOther type_name) sr
           body s (ValueError (BAD_TIMEOUT type_name)) (at_lock s)).
  reflexivity.
Qed.

(** ** [unlock] when no server is listening *)

Lemma unlock_attempt_refused w lockname nonce pid sr lw s :
  on_connect (net_at w (conns s)) = Refused ->
  exists lw' s1,
    unlock_attempt w lockname nonce pid sr true lw s
    = (Returns (true, lw'), s1) /\
    conns s1 = S (conns s) /\
    ticks s1 = ticks s /\
    sleeps (trace s1) = sleeps (trace s).
Proof.
  intros Hr. destruct sr.
  - assert (T : try_to_unlock w lockname nonce pid true s
                = (Raises (LockFailed NO_SERVER_MESSAGE),
                   State (S (conns s)) (ticks s)
                     (EvLog LError NO_SERVER_MESSAGE :: trace s))).
    { unfold try_to_unlock, connect_to_server, open_socket.
      unfold mbind, M_bind. simpl. rewrite Hr. reflexivity. }
    pose proof (unlock_attempt_raised w lockname nonce pid true true lw s
                  _ _ T) as A.
    cbv beta iota in A. rewrite no_server_message_is_not_wrong_nonce in A.
    destruct (is_new_warning NO_SERVER_MESSAGE lw);
      eexists _, _; (split; [exact A|]); simpl; auto.
  - assert (T : try_to_unlock w lockname nonce pid false s
                = (Returns true,
                   State (S (conns s)) (ticks s)
                     (EvLog LWarning (NO_SERVER_WARNING false) :: trace s))).
    { unfold try_to_unlock, connect_to_server, open_socket.
      unfold mbind, M_bind. simpl. rewrite Hr. reflexivity. }
    eexists _, _.
    split; [exact (unlock_attempt_returned w lockname nonce pid false true
                     lw s _ _ T)|].
    simpl. auto.
Qed.

Lemma unlock_loop_timed_out w fuel lockname nonce pid sr d lw s lw' s1 :
  unlock_attempt w lockname nonce pid sr true lw s = (Returns (true, lw'), s1) ->
  d < now_at w (ticks s1) ->
  (unlock_loop w (S fuel) lockname nonce pid sr (Some d) true lw s).1
  = Raises (NameError "warning_msg").
Proof.
  intros Ha Hd. cbn [unlock_loop]. unfold mbind, M_bind. rewrite Ha.
  simpl. unfold check_unlock_deadline, mbind, M_bind, now. simpl.
  destruct (Z.ltb_spec d (now_at w (ticks s1))); [reflexivity|lia].
Qed.

Lemma unlock_loop_refused w lockname nonce pid sr :
  (forall k, on_connect (net_at w k) = Refused) ->
  forall fuel lw s,
    let run := unlock_loop w fuel lockname nonce pid sr None true lw s in
    run.1 = Loops /\
    conns run.2 = (conns s + fuel)%nat /\
    sleeps (trace run.2) = (sleeps (trace s) + fuel)%nat.
Proof.
  intros Hr. induction fuel as [|fuel IH]; intros lw s; cbv zeta.
  - simpl. repeat split; lia.
  - destruct (unlock_attempt_refused w lockname nonce pid sr lw s (Hr _))
      as (lw' & s1 & A & Hc & Ht & Hs).
    destruct (unlock_loop_retry w fuel lockname nonce pid sr None lw s
                lw' s1 A I) as (s' & -> & Hc' & Ht').
    destruct (IH lw' s') as (-> & -> & ->).
    rewrite Ht'. cbn [sleeps List.filter is_sleep length].
    fold (sleeps (trace s1)). repeat split; lia.
Qed.

Lemma unlock_loop_refused_outcome w lockname nonce pid sr deadline :
  (forall k, on_connect (net_at w k) = Refused) ->
  forall fuel lw s,
    let run := unlock_loop w fuel lockname nonce pid sr deadline true lw s in
    run.1 = Loops \/ run.1 = Raises (NameError "warning_msg").
Proof.
  intros Hr. induction fuel as [|fuel IH]; intros lw s; cbv zeta.
  - left. reflexivity.
  - destruct (unlock_attempt_refused w lockname nonce pid sr lw s (Hr _))
      as (lw' & s1 & A & _).
    destruct deadline as [d|].
    + destruct (Z.lt_ge_cases d (now_at w (ticks s1))) as [Hd|Hd].
      * right. apply (unlock_loop_timed_out w fuel lockname nonce pid sr d
                        lw s lw' s1 A Hd).
      * destruct (unlock_loop_retry w fuel lockname nonce pid sr (Some d)
                    lw s lw' s1 A) as (s' & -> & _); [simpl; lia|].
        apply IH.
    + destruct (unlock_loop_retry w fuel lockname nonce pid sr None
                  lw s lw' s1 A I) as (s' & -> & _).
      apply IH.
Qed.

(** X8: with no server listening [unlock] behaves like [lock]. For
    either value of [server_required] each attempt counts as a failed
    one, so [unlock] never returns and never raises [LockFailed],
    whatever the timeout; without a timeout it is still retrying after
    any number of iterations, one socket and one sleep in each. A block
    under [locked] that outlives the server is therefore never left. *)
Theorem unlock_server_down_never_returns w fuel lockname nonce pid sr s :
  (forall k, on_connect (net_at w k) = Refused) ->
  (forall tmo b,
      (unlock w fuel lockname nonce pid tmo sr s).1 <> Returns b) /\
  (forall tmo msg,
      (unlock w fuel lockname nonce pid tmo sr s).1
      <> Raises (LockFailed msg)) /\
  let run := unlock w fuel lockname nonce pid TNone sr s in
  run.1 = Loops /\
  conns run.2 = (conns s + fuel)%nat /\
  sleeps (trace run.2) = (sleeps (trace s) + fuel)%nat.
Proof.
  intros Hr.
  assert (O : forall tmo,
             match (unlock w fuel lockname nonce pid tmo sr s).1 with
             | Returns _ => False
             | Raises (LockFailed _) => False
             | _ => True
             end).
  { intros tmo. unfold unlock. unfold mbind at 1. unfold M_bind at 1.
    pose proof (get_deadline_post w tmo s) as P. unfold wp in P.
    destruct (get_deadline w tmo s) as [[dl|e|] s1]; simpl in P.
    - pose proof (unlock_loop_refused_outcome w lockname nonce pid sr dl Hr
                    fuel None s1) as L. cbv zeta in L.
      unfold mbind, M_bind.
      destruct (unlock_loop _ _ _ _ _ _ _ _ _ _) as [[r|e|] s2]; simpl in *.
      + destruct L; discriminate.
      + destruct L as [L|L]; [discriminate|]. injection L as ->. exact I.
      + exact I.
    - destruct P as (_ & _ & P). simpl.
      destruct e; try exact I; contradiction.
    - exact I. }
  split; [|split].
  - intros tmo b H. specialize (O tmo). rewrite H in O. exact O.
  - intros tmo msg H. specialize (O tmo). rewrite H in O. exact O.
  - cbv zeta. unfold unlock. unfold mbind at 1 3 5. unfold M_bind at 1 3 5.
    rewrite get_deadline_none.
    pose proof (unlock_loop_refused w lockname nonce pid sr Hr fuel None s)
      as L. cbv zeta in L. unfold mbind, M_bind.
    destruct (unlock_loop _ _ _ _ _ _ _ _ _ _) as [[r|e|] s2]; simpl in *.
    all: destruct L as (L & ? & ?); try discriminate. auto.
Qed.

Lemma unlock_server_down_never_returns_witness :
  (unlock w_down 3 "lock1" (AStr "abc123") 4242 TNone true initial).1 = Loops.
Proof.
  apply (unlock_server_down_never_returns w_down 3 "lock1" (AStr "abc123")
           4242 true initial).
  intros k. reflexivity.
Defined.

(** ** How often [lock] logs and sleeps *)

Lemma logged_cons msg ev tr :
  logged msg (ev :: tr)
  = ((if is_log_of msg ev then 1 else 0) + logged msg tr)%nat.
Proof. unfold logged. simpl. destruct (is_log_of msg ev); reflexivity. Qed.

Lemma sleeps_cons ev tr :
  sleeps (ev :: tr) = ((if is_sleep ev then 1 else 0) + sleeps tr)%nat.
Proof. unfold sleeps. simpl. destruct (is_sleep ev); reflexivity. Qed.

Lemma is_new_warning_same msg : is_new_warning msg (Some msg) = false.
Proof. simpl. rewrite String.eqb_refl. reflexivity. Qed.

Lemma lock_attempt_denied w lockname pid sr l n lw s d :
  net_at w (conns s) = reply d ->
  denies d = true ->
  contains WRONG_NONCE (REJECTED_LOCK_MESSAGE lockname (reason d)) = false ->
  let msg := REJECTED_LOCK_MESSAGE lockname (reason d) in
  let sent := EvSend (lock_request lockname pid) :: trace s in
  lock_attempt w lockname pid sr l n lw s
  = if is_new_warning msg lw then
      (Returns (l, n, Some msg),
       State (S (conns s)) (ticks s) (EvLog LDebug msg :: sent))
    else (Returns (l, n, lw), State (S (conns s)) (ticks s) sent).
Proof.
  intros H Hd Hw. cbv zeta.
  pose proof (try_to_lock_denied w lockname pid sr d s H Hd) as T.
  rewrite (lock_attempt_raised w lockname pid sr l n lw s _ _ T).
  cbv beta iota. rewrite Hw. reflexivity.
Qed.

Lemma lock_loop_denied_logged w lockname pid sr d :
  (forall k, net_at w k = reply d) ->
  denies d = true ->
  contains WRONG_NONCE (REJECTED_LOCK_MESSAGE lockname (reason d)) = false ->
  let msg := REJECTED_LOCK_MESSAGE lockname (reason d) in
  forall fuel l n lw s,
    truthy l = false ->
    let run := lock_loop w fuel lockname pid sr None l n lw s in
    logged msg (trace run.2)
    = (logged msg (trace s)
       + match fuel with
         | O => 0
         | S _ => if is_new_warning msg lw then 1 else 0
         end)%nat.
Proof.
  intros Hn Hd Hw msg. induction fuel as [|fuel IH]; intros l n lw s Hl.
  - cbv zeta. simpl. rewrite Hl. simpl. lia.
  - cbv zeta.
    pose proof (lock_attempt_denied w lockname pid sr l n lw s d (Hn _) Hd Hw)
      as A. cbv zeta in A. fold msg in A.
    destruct (is_new_warning msg lw) eqn:N.
    + destruct (lock_loop_retry w fuel lockname pid sr None l n lw s _ _
                  Hl A Hl I) as (s' & -> & _ & Ht).
      cbn [fst snd]. rewrite (IH l n (Some msg) s' Hl). rewrite Ht.
      rewrite is_new_warning_same. cbn [trace].
      rewrite !logged_cons. cbn [is_log_of]. rewrite String.eqb_refl.
      destruct fuel; lia.
    + destruct (lock_loop_retry w fuel lockname pid sr None l n lw s _ _
                  Hl A Hl I) as (s' & -> & _ & Ht).
      cbn [fst snd]. rewrite (IH l n lw s' Hl). rewrite Ht. rewrite N.
      cbn [trace]. rewrite !logged_cons. cbn [is_log_of].
      destruct fuel; lia.
Qed.

Lemma try_to_lock_no_sleep w lockname pid sr s :
  wp (try_to_lock w lockname pid sr)
     (fun _ s' => sleeps (trace s') = sleeps (trace s)) s.
Proof.
  unfold try_to_lock, connect_to_server.
  repeat wp_step; simpl; try reflexivity.
  wp_use check_lock_response_post.
  destruct H as [-> _]. reflexivity.
Qed.

Lemma lock_attempt_no_sleep w lockname pid sr l n lw s :
  wp (lock_attempt w lockname pid sr l n lw)
     (fun _ s' => sleeps (trace s') = sleeps (trace s)) s.
Proof.
  unfold lock_attempt.
  wp_step. wp_step. wp_use try_to_lock_no_sleep.
  destruct o as [[l1 n1]|e|]; simpl; try assumption.
  destruct e; repeat wp_step; simpl; assumption.
Qed.

Lemma lock_loop_acquired w fuel lockname pid sr deadline l n lw s r s1 :
  truthy l = false ->
  lock_attempt w lockname pid sr l n lw s = (Returns r, s1) ->
  truthy r.1.1 = true ->
  lock_loop w (S fuel) lockname pid sr deadline l n lw s
  = (Returns (r.1.1, r.1.2), s1).
Proof.
  intros Hl Ha Hr. cbn [lock_loop]. rewrite Hl.
  unfold mbind at 1. unfold M_bind at 1. rewrite Ha.
  rewrite Hr. cbn [negb when]. unfold mbind, M_bind. simpl.
  apply lock_loop_done. assumption.
Qed.

Lemma lock_loop_timed_out w fuel lockname pid sr d l n lw s r s1 :
  truthy l = false ->
  lock_attempt w lockname pid sr l n lw s = (Returns r, s1) ->
  truthy r.1.1 = false ->
  d < now_at w (ticks s1) ->
  lock_loop w (S fuel) lockname pid sr (Some d) l n lw s
  = (Raises (LockTimeout (LOCK_TIMED_OUT lockname)),
     State (conns s1) (S (ticks s1))
       (EvLog LWarning (LOCK_TIMED_OUT lockname) :: trace s1)).
Proof.
  intros Hl Ha Hr Hd. cbn [lock_loop]. rewrite Hl.
  unfold mbind, M_bind. rewrite Ha. rewrite Hr. simpl.
  unfold check_lock_deadline, mbind, M_bind, now. simpl.
  destruct (Z.ltb_spec d (now_at w (ticks s1))); [reflexivity|lia].
Qed.

Lemma lock_loop_account w lockname pid sr deadline :
  forall fuel l n lw s,
    truthy l = false ->
    let run := lock_loop w fuel lockname pid sr deadline l n lw s in
    attempts_and_sleeps fuel s run.1 run.2.
Proof.
  induction fuel as [|fuel IH]; intros l n lw s Hl; cbv zeta.
  - simpl. rewrite Hl. simpl. split; lia.
  - pose proof (lock_attempt_post w lockname pid sr l n lw s Hl) as P.
    pose proof (lock_attempt_no_sleep w lockname pid sr l n lw s) as Z.
    unfold wp in P, Z.
    destruct (lock_attempt w lockname pid sr l n lw s) as [[r|e|] s1] eqn:A;
      simpl in P, Z; destruct P as [(Hc & _ & _) P]; [| |contradiction].
    + destruct (truthy r.1.1) eqn:Hr.
      * rewrite (lock_loop_acquired w fuel lockname pid sr deadline l n lw s
                   r s1 Hl A Hr).
        simpl. exists 0%nat. repeat split; lia.
      * assert (Round : deadline_open deadline (now_at w (ticks s1)) ->
                        attempts_and_sleeps (S fuel) s
                          (lock_loop w (S fuel) lockname pid sr deadline
                             l n lw s).1
                          (lock_loop w (S fuel) lockname pid sr deadline
                             l n lw s).2).
        { intros Hopen.
          destruct (lock_loop_retry w fuel lockname pid sr deadline l n lw s
                      r s1 Hl A Hr Hopen) as (s' & -> & Hc' & Ht').
          specialize (IH r.1.1 r.1.2 r.2 s' Hr). cbv zeta in IH.
          assert (Hz : sleeps (trace s') = S (sleeps (trace s)))
            by (rewrite Ht', sleeps_cons; simpl; lia).
          destruct (lock_loop w fuel lockname pid sr deadline r.1.1 r.1.2
                      r.2 s') as [[x|e|] s2]; simpl in *.
          - destruct IH as (a & Ha & Hca & Hsa).
            exists (S a). repeat split; lia.
          - destruct IH as (a & Ha & Hca & Hsa).
            exists (S a). repeat split; lia.
          - destruct IH as (Hca & Hsa). split; lia. }
        destruct deadline as [d|]; [|apply Round; exact I].
        destruct (Z.lt_ge_cases d (now_at w (ticks s1))) as [Hd|Hd];
          [|apply Round; simpl; lia].
        rewrite (lock_loop_timed_out w fuel lockname pid sr d l n lw s r s1
                   Hl A Hr Hd).
        simpl. exists 0%nat. rewrite sleeps_cons. simpl.
        repeat split; lia.
    + rewrite (lock_loop_raised w fuel lockname pid sr deadline l n lw s e s1
                 Hl A).
      simpl. exists 0%nat. repeat split; lia.
Qed.

(** X4: a rejection repeated at every poll is logged at most once.
    Against a server that keeps denying the lock with the same reason,
    what [lock] without a timeout does depends on the rejection message
    that [try_to_lock] builds from the lock name and the reason. If the
    message has no ['Wrong nonce'], [lock] is still retrying after any
    number of iterations, one socket each, and its whole run adds
    exactly one log record of the message. If it has, [lock] raises
    [LockFailed] after the first request and logs nothing. *)
Theorem repeated_rejection_is_logged_once w fuel lockname sr s d :
  (forall k, net_at w k = reply d) ->
  denies d = true ->
  let msg := REJECTED_LOCK_MESSAGE lockname (reason d) in
  let run := lock w (S fuel) lockname TNone sr s in
  if contains WRONG_NONCE msg then
    run
    = (Raises (LockFailed msg),
       State (S (conns s)) (ticks s)
         (EvSend (lock_request lockname (getpid w)) :: trace s))
    /\ logged msg (trace run.2) = logged msg (trace s)
  else
    run.1 = Loops /\
    conns run.2 = (conns s + S fuel)%nat /\
    logged msg (trace run.2) = S (logged msg (trace s)).
Proof.
  intros Hn Hd. cbv zeta. rewrite lock_without_timeout.
  destruct (contains WRONG_NONCE (REJECTED_LOCK_MESSAGE lockname (reason d)))
    eqn:Hw.
  - pose proof (try_to_lock_denied w lockname (getpid w) sr d s (Hn _) Hd)
      as T.
    pose proof (lock_attempt_raised w lockname (getpid w) sr (ABool false)
                  ANone None s _ _ T) as A.
    cbv beta iota in A. rewrite Hw in A.
    pose proof (lock_loop_raised w fuel lockname (getpid w) sr None
                  (ABool false) ANone None s _ _ eq_refl A) as L.
    unfold mbind, M_bind. rewrite L. cbn [fst snd trace].
    split; [reflexivity|]. rewrite logged_cons. reflexivity.
  - pose proof (lock_loop_denied_forever w lockname (getpid w) sr d Hn Hd Hw
                  (S fuel) (ABool false) ANone None s eq_refl) as L.
    pose proof (lock_loop_denied_logged w lockname (getpid w) sr d Hn Hd Hw
                  (S fuel) (ABool false) ANone None s eq_refl) as G.
    pose proof (lock_loop_account w lockname (getpid w) sr None (S fuel)
                  (ABool false) ANone None s eq_refl) as C.
    cbv zeta in G, C. unfold mbind, M_bind.
    destruct (lock_loop w (S fuel) lockname (getpid w) sr None (ABool false)
                ANone None s) as [[r|e|] s2];
      cbn [fst snd] in *; try discriminate.
    cbn [attempts_and_sleeps] in C. cbn [is_new_warning] in G.
    split; [reflexivity|]. split; [lia|lia].
Qed.

Lemma repeated_rejection_is_logged_once_witness :
  let msg := REJECTED_LOCK_MESSAGE "lock1" "already locked" in
  let run := lock w_busy 5 "lock1" TNone true initial in
  run.1 = Loops /\ conns run.2 = 5%nat /\ logged msg (trace run.2) = 1%nat.
Proof.
  exact (repeated_rejection_is_logged_once w_busy 4 "lock1" true initial
           (deny LOCK_ACTION "lock1" "already locked")
           (fun k => eq_refl) eq_refl).
Defined.

Lemma lock_unfold w fuel lockname tmo sr s :
  lock w fuel lockname tmo sr s
  = match get_deadline w tmo s with
    | (Returns deadline, s1) =>
        match lock_loop w fuel lockname (getpid w) sr deadline
                (ABool false) ANone None s1 with
        | (Returns r, s2) => (Returns (r.1, r.2, getpid w), s2)
        | (Raises e, s2) => (Raises e, s2)
        | (Loops, s2) => (Loops, s2)
        end
    | (Raises e, s1) => (Raises e, s1)
    | (Loops, s1) => (Loops, s1)
    end.
Proof.
  unfold lock, mbind, M_bind.
  destruct (get_deadline w tmo s) as [[dl|e|] s1]; reflexivity.
Qed.

(** X11: [lock] sleeps once after every attempt but its last. A call
    that returns or raises after [a + 1] attempts has slept [a] times;
    a call that is still retrying when the fuel of the model runs out
    has made and slept as many times as there was fuel; a call refused
    for its timeout has done neither. *)
Theorem lock_sleeps_between_attempts w fuel lockname tmo sr s :
  let run := lock w fuel lockname tmo sr s in
  (conns run.2 = conns s /\ sleeps (trace run.2) = sleeps (trace s) /\
   exists e, run.1 = Raises e)
  \/ attempts_and_sleeps fuel s run.1 run.2.
Proof.
  cbv zeta. rewrite lock_unfold.
  pose proof (get_deadline_post w tmo s) as P. unfold wp in P.
  destruct (get_deadline w tmo s) as [[dl|e|] s1]; simpl in P.
  - right. destruct P as (Hc & Ht & _).
    pose proof (lock_loop_account w lockname (getpid w) sr dl fuel
                  (ABool false) ANone None s1 eq_refl) as C.
    cbv zeta in C.
    destruct (lock_loop _ _ _ _ _ _ _ _ _ _) as [[r|e|] s2]; simpl in *.
    all: rewrite Hc, Ht in C; exact C.
  - left. destruct P as (Hc & Ht & _). simpl.
    rewrite Ht. eauto.
  - destruct P as (_ & _ & []).
Qed.

(** ** [locked] and [synchronized] against a free lock *)

Lemma locked_uncontended w fuel lockname sr body s d n o sb d' :
  net_at w (conns s) = reply d ->
  grants d (resolve_lockname w lockname) = true ->
  d !! NONCE_KEY = Some n ->
  body (locked_at_once w lockname s) = (o, sb) ->
  o <> Loops ->
  net_at w (conns sb) = reply d' ->
  confirms_release d' n = true ->
  locked w (S fuel) lockname TNone sr body s
  = (o, released_at_once w lockname n sb).
Proof.
  intros H Hg Hn Hb Ho H' Hc.
  pose proof (lock_first_reply_grants w fuel (resolve_lockname w lockname)
                TNone sr (at_lock s) None (at_lock s) d n eq_refl H Hg Hn)
    as L.
  rewrite (locked_acquired w _ _ _ _ body s _ _ L). cbv zeta.
  change (at_body _) with (locked_at_once w lockname s).
  rewrite Hb. cbn [fst snd].
  rewrite (unlock_first_reply_confirms w fuel _ n (getpid w) sr
             (at_unlock sb) d' H' Hc).
  unfold released_at_once. destruct o as [[]| |]; try reflexivity.
  congruence.
Qed.

(** X16: [locked] against a free lock. If the first reply grants the
    lock with nonce [n], the block ends (returning or raising) in state
    [sb], and the next reply confirms the release of [n], then [locked]
    ends as the block did, its exception included, after one lock
    request before the block and one unlock request, carrying [n],
    after it; nothing is logged and nothing sleeps. *)
Theorem locked_round_trip w fuel lockname sr body s d n o sb d' :
  net_at w (conns s) = reply d ->
  grants d (resolve_lockname w lockname) = true ->
  d !! NONCE_KEY = Some n ->
  body (locked_at_once w lockname s) = (o, sb) ->
  o <> Loops ->
  net_at w (conns sb) = reply d' ->
  confirms_release d' n = true ->
  locked w (S fuel) lockname TNone sr body s
  = (o, released_at_once w lockname n sb).
Proof. apply locked_uncontended. Qed.

Lemma locked_round_trip_witness :
  locked w_free 1 (Some "lock1") TNone true (raise (OtherError "boom"))
    initial
  = (Raises (OtherError "boom"),
     released_at_once w_free (Some "lock1") (AStr "abc123")
       (locked_at_once w_free (Some "lock1") initial)).
Proof.
  apply (locked_round_trip w_free 0 (Some "lock1") true
           (raise (OtherError "boom")) initial
           (grant "lock1" "abc123") (AStr "abc123") (Raises (OtherError "boom"))
           (locked_at_once w_free (Some "lock1") initial)
           (released "lock2" "abc123")).
  - reflexivity.
  - vm_compute. reflexivity.
  - vm_compute. reflexivity.
  - reflexivity.
  - discriminate.
  - reflexivity.
  - vm_compute. reflexivity.
Defined.

(** X17: a call of a function wrapped by [synchronized] takes and
    releases the lock twice, both times under the default name, with no
    timeout and the server required: once around the look-up in
    [synchronized_locks] and once around the function. If the first
    passage does not return, the function is never called. Against a
    free lock the function runs once, after three requests, and the
    wrapper ends as the function did after a fourth. *)
Theorem synchronized_locks_twice w fuel function s :
  (forall o s1,
      locked w fuel None TNone true (mret tt) s = (o, s1) ->
      o <> Returns tt ->
      (synchronized w fuel function s).2 = s1 /\
      match o with
      | Returns _ => False
      | Raises e => (synchronized w fuel function s).1 = Raises e
      | Loops => (synchronized w fuel function s).1 = Loops
      end) /\
  (forall d1 n1 d1' d2 n2 o sf d2',
      let s1 := released_at_once w None n1 (locked_at_once w None s) in
      net_at w (conns s) = reply d1 ->
      grants d1 (caller_id w) = true ->
      d1 !! NONCE_KEY = Some n1 ->
      net_at w (S (conns s)) = reply d1' ->
      confirms_release d1' n1 = true ->
      net_at w (S (S (conns s))) = reply d2 ->
      grants d2 (caller_id w) = true ->
      d2 !! NONCE_KEY = Some n2 ->
      function (locked_at_once w None s1) = (o, sf) ->
      o <> Loops ->
      net_at w (conns sf) = reply d2' ->
      confirms_release d2' n2 = true ->
      synchronized w (S fuel) function s
      = (o, released_at_once w None n2 sf)).
Proof.
  split.
  - intros o s1 H Ho. unfold synchronized, mbind, M_bind. rewrite H.
    destruct o as [[]|e|]; simpl; auto. congruence.
  - intros d1 n1 d1' d2 n2 o sf d2' s1 H1 G1 N1 H1' C1 H2 G2 N2 Hf Ho H2' C2.
    unfold synchronized, mbind, M_bind.
    rewrite (locked_uncontended w fuel None true (mret tt) s d1 n1
               (Returns tt) (locked_at_once w None s) d1');
      try assumption; try reflexivity; try discriminate.
    fold s1.
    apply (locked_uncontended w fuel None true function s1 d2 n2 o sf d2');
      assumption.
Qed.

Lemma synchronized_locks_twice_witness :
  synchronized w_turns 1 (raise (OtherError "boom")) initial
  = (Raises (OtherError "boom"),
     released_at_once w_turns None (AStr "abc123")
       (locked_at_once w_turns None
          (released_at_once w_turns None (AStr "abc123")
             (locked_at_once w_turns None initial)))).
Proof.
  apply (proj2 (synchronized_locks_twice w_turns 0
                  (raise (OtherError "boom")) initial)
           (grant "app.py:10" "abc123") (AStr "abc123")
           (released "app.py:10" "abc123")
           (grant "app.py:10" "abc123") (AStr "abc123")
           (Raises (OtherError "boom")) _
           (released "app.py:10" "abc123")).
  all: first [reflexivity | discriminate | vm_compute; reflexivity].
Defined.

(** ** The default lock name *)

Section CallerFacts.

Variable re_match : string -> string -> bool.

Lemma ignore_filename_spec _ignore filename :
  ignore_filename re_match _ignore filename
  = ends_with "/runpy.py" filename
    || existsb (fun pattern => re_match pattern filename) _ignore.
Proof.
  unfold ignore_filename.
  destruct (ends_with "/runpy.py" filename); [reflexivity|]. simpl.
  assert (G : forall acc,
             fold_left
               (fun ignored pattern =>
                  if re_match pattern filename then true else ignored)
               _ignore acc
             = acc || existsb (fun pattern => re_match pattern filename)
                        _ignore).
  { induction _ignore as [|p l IH]; intros acc; simpl.
    - rewrite orb_false_r. reflexivity.
    - rewrite IH. destruct (re_match p filename), acc; reflexivity. }
  apply G.
Qed.

Lemma first_frame_found (keep : string * Z -> bool)
    (pick : string * Z -> string * Z) (frames : list (string * Z)) :
  (forall found,
      fold_left
        (fun call_line fr =>
           match call_line with
           | Some _ => call_line
           | None => if keep fr then Some (pick fr) else None
           end)
        frames (Some found)
      = Some found) /\
  match
    fold_left
      (fun call_line fr =>
         match call_line with
         | Some _ => call_line
         | None => if keep fr then Some (pick fr) else None
         end)
      frames None
  with
  | Some r =>
      exists inner fr outer,
        frames = (inner ++ fr :: outer)%list /\ r = pick fr /\ keep fr = true /\
        Forall (fun f => keep f = false) inner
  | None => Forall (fun f => keep f = false) frames
  end.
Proof.
  induction frames as [|fr frames [IHs IHn]]; simpl.
  - split; [reflexivity|constructor].
  - split; [intros found; apply IHs|].
    destruct (keep fr) eqn:K.
    + rewrite IHs. exists [], fr, frames. repeat split; auto.
    + destruct (fold_left _ frames None) as [r|].
      * destruct IHn as (inner & f & outer & -> & -> & Kf & Hin).
        exists (fr :: inner), f, outer. repeat split; auto.
      * constructor; assumption.
Qed.

Lemma caller_selects ignore this_module_valid file stack :
  let _ignore := ignore_list ignore this_module_valid file in
  let ignored path :=
    ends_with "/runpy.py" path
    || existsb (fun pattern => re_match pattern path) _ignore in
  match caller re_match ignore this_module_valid file stack with
  | Some (filename, line) =>
      exists outer path inner,
        stack = (outer ++ (path, line) :: inner)%list /\
        filename = after_last_slash path /\
        ignored path = false /\
        Forall (fun fr => ignored fr.1 = true) inner
  | None => Forall (fun fr => ignored fr.1 = true) stack
  end.
Proof.
  cbv zeta.
  unfold caller.
  pose proof (proj2 (first_frame_found
                       (fun fr : string * Z =>
                          negb (ignore_filename re_match
                                          (ignore_list ignore
                                             this_module_valid file) fr.1))
                       (fun fr : string * Z => (after_last_slash fr.1, fr.2))
                       (rev stack))) as F.
  cbv beta in F.
  assert (E : forall (l : list (string * Z)) acc,
             fold_left
               (fun call_line (fr : string * Z) =>
                  match call_line with
                  | Some _ => call_line
                  | None =>
                      if ignore_filename re_match
                           (ignore_list ignore this_module_valid file) fr.1
                      then None
                      else Some (after_last_slash fr.1, fr.2)
                  end) l acc
             = fold_left
                 (fun call_line (fr : string * Z) =>
                    match call_line with
                    | Some _ => call_line
                    | None =>
                        if negb (ignore_filename re_match
                                   (ignore_list ignore this_module_valid
                                      file) fr.1)
                        then Some (after_last_slash fr.1, fr.2)
                        else None
                    end) l acc).
  { induction l as [|x l IH]; intros acc; simpl; [reflexivity|].
    rewrite IH. destruct acc; [reflexivity|].
    destruct (ignore_filename _ _ _); reflexivity. }
  rewrite E. clear E.
  destruct (fold_left _ (rev stack) None) as [[filename line]|].
  + destruct F as (inner & [path l] & outer & Hs & Hr & Hk & Hin).
    simpl in Hr. injection Hr as -> ->.
    exists (rev outer), path, (rev inner).
    split.
    * rewrite <- (rev_involutive stack), Hs, rev_app_distr. simpl.
      rewrite <- app_assoc. reflexivity.
    * split; [reflexivity|]. split.
      -- rewrite <- ignore_filename_spec.
         apply negb_true_iff in Hk. exact Hk.
      -- apply Forall_rev. eapply Forall_impl; [exact Hin|].
         intros fr Hfr. simpl in Hfr. rewrite <- ignore_filename_spec.
         apply negb_false_iff in Hfr. exact Hfr.
  + rewrite <- (rev_involutive stack). apply Forall_rev.
    eapply Forall_impl; [exact F|].
    intros fr Hfr. simpl in Hfr. rewrite <- ignore_filename_spec.
    apply negb_false_iff in Hfr. exact Hfr.
Qed.

(** X14: [caller] walks the stack from the innermost frame outwards and
    stops at the first frame whose file is not ignored: it returns the
    file name of that frame without its directory and its line number,
    every frame nearer to the call being ignored. It returns [None]
    exactly when every frame is ignored. A file is ignored when its
    path ends in [/runpy.py] or a pattern of the list matches it, and
    unless [this_module_valid] is set the list ends with the module's
    own file. *)
Theorem caller_picks_innermost_unignored
    ignore this_module_valid file stack :
  let _ignore := ignore_list ignore this_module_valid file in
  let ignored path :=
    ends_with "/runpy.py" path
    || existsb (fun pattern => re_match pattern path) _ignore in
  (this_module_valid = false -> In file _ignore) /\
  match caller re_match ignore this_module_valid file stack with
  | Some (filename, line) =>
      exists outer path inner,
        stack = (outer ++ (path, line) :: inner)%list /\
        filename = after_last_slash path /\
        ignored path = false /\
        Forall (fun fr => ignored fr.1 = true) inner
  | None => Forall (fun fr => ignored fr.1 = true) stack
  end.
Proof.
  cbv zeta. split.
  - intros ->. unfold ignore_list. apply in_or_app. right. left. reflexivity.
  - apply caller_selects.
Qed.

Lemma ends_with_refl s : ends_with s s = true.
Proof. destruct s; cbn [ends_with]; rewrite String.eqb_refl; reflexivity. Qed.

Lemma after_last_slash_no_slash s : has_slash (after_last_slash s) = false.
Proof.
  induction s as [|c t IH]; simpl; [reflexivity|].
  destruct (has_slash t) eqn:Ht; [exact IH|].
  destruct (Ascii.eqb c "/") eqn:Hc; [exact Ht|].
  simpl. rewrite Hc, Ht. reflexivity.
Qed.

Lemma after_last_slash_suffix s : ends_with (after_last_slash s) s = true.
Proof.
  induction s as [|c t IH]; [reflexivity|].
  cbn [after_last_slash].
  destruct (has_slash t) eqn:Ht.
  - cbn [ends_with]. rewrite IH. apply orb_true_r.
  - destruct (Ascii.eqb c "/") eqn:Hc.
    + cbn [ends_with]. rewrite ends_with_refl. apply orb_true_r.
    + apply ends_with_refl.
Qed.

Lemma after_last_slash_id s : has_slash s = false -> after_last_slash s = s.
Proof.
  destruct s as [|c t]; [reflexivity|]. simpl.
  intros H. apply orb_false_iff in H. destruct H as [Hc Ht].
  rewrite Ht, Hc. reflexivity.
Qed.

(** X15: the default lock name. [caller_id] names the frame [caller]
    picks as its file name, a colon and its line number. The file name
    is the end of the path of a frame of the stack at that line and has
    no slash in it, so that the same file name at the same line in two
    directories gives the same name. When every frame is ignored
    [caller_id] raises [TypeError]. *)
Theorem caller_id_is_file_name_and_line ignore file stack s :
  match caller re_match ignore false file stack with
  | Some (filename, line) =>
      caller_id_of re_match ignore file stack s
      = (Returns (filename +:+ ":" +:+ pretty line), s) /\
      has_slash filename = false /\
      exists path,
        In (path, line) stack /\ ends_with filename path = true /\
        (has_slash path = false -> filename = path)
  | None => caller_id_of re_match ignore file stack s = (Raises TypeError, s)
  end.
Proof.
  pose proof (caller_selects ignore false file stack) as P. cbv zeta in P.
  unfold caller_id_of.
  destruct (caller re_match ignore false file stack) as [[filename line]|];
    [|reflexivity].
  destruct P as (outer & path & inner & -> & -> & _ & _).
  split; [reflexivity|]. split; [apply after_last_slash_no_slash|].
  exists path. split; [|split].
  - apply in_or_app. right. left. reflexivity.
  - apply after_last_slash_suffix.
  - apply after_last_slash_id.
Qed.

End CallerFacts.

(** ** What [server_required] changes *)

Lemma check_lock_response_state lockname p s s' :
  (check_lock_response lockname p s).1 = (check_lock_response lockname p s').1
  /\ (check_lock_response lockname p s).2 = s.
Proof.
  destruct p as [d|a].
  - rewrite !check_lock_response_dict. split; reflexivity.
  - split; reflexivity.
Qed.

Lemma try_to_lock_either_way w lockname pid s s' :
  same_but_log s s' ->
  let a := try_to_lock w lockname pid true s in
  let b := try_to_lock w lockname pid false s' in
  same_but_log a.2 b.2 /\
  match on_connect (net_at w (conns s)) with
  | Refused =>
      a.1 = Raises (LockFailed NO_SERVER_MESSAGE) /\
      b.1 = Returns (ABool false, ANone)
  | _ => a.1 = b.1
  end.
Proof.
  intros (Hc & Ht & Hz). cbv zeta.
  unfold same_but_log, try_to_lock, connect_to_server, open_socket.
  unfold mbind, M_bind. simpl. rewrite <- Hc.
  destruct (net_at w (conns s)) as [c sd r]; simpl.
  destruct c as [| |e]; simpl; [| |destruct e]; auto.
  destruct sd as [|m|e]; simpl; [| |destruct e]; auto.
  destruct r as [e|e|p]; simpl; [destruct e| |]; auto.
  pose proof (check_lock_response_state lockname p
                (State (S (conns s)) (ticks s)
                   (EvSend (lock_request lockname pid) :: trace s))
                (State (S (conns s)) (ticks s')
                   (EvSend (lock_request lockname pid) :: trace s')))
    as [E1 E2].
  pose proof (check_lock_response_state lockname p
                (State (S (conns s)) (ticks s')
                   (EvSend (lock_request lockname pid) :: trace s'))
                (State (S (conns s)) (ticks s)
                   (EvSend (lock_request lockname pid) :: trace s)))
    as [_ E3].
  destruct (check_lock_response lockname p
              (State (S (conns s)) (ticks s) _)) as [oa sa].
  destruct (check_lock_response lockname p
              (State (S (conns s)) (ticks s') _)) as [ob sb].
  simpl in *. subst. simpl. auto.
Qed.

Lemma lock_attempt_either_way w lockname pid lw lw' s s' :
  same_but_log s s' ->
  let a := lock_attempt w lockname pid true (ABool false) ANone lw s in
  let b := lock_attempt w lockname pid false (ABool false) ANone lw' s' in
  same_but_log a.2 b.2 /\
  match a.1, b.1 with
  | Returns ra, Returns rb =>
      ra.1 = rb.1 /\ (ra.1 = (ABool false, ANone) \/ truthy ra.1.1 = true)
  | Raises e, Raises e' => e = e'
  | _, _ => False
  end.
Proof.
  intros R. cbv zeta.
  pose proof (try_to_lock_either_way w lockname pid s s' R) as T.
  pose proof (try_to_lock_post w lockname pid true s) as P.
  pose proof (try_to_lock_post w lockname pid false s') as P'.
  cbv zeta in T. unfold wp in P, P'.
  unfold lock_attempt, try_except, mbind, M_bind.
  destruct (try_to_lock w lockname pid true s) as [[[la na]|ea|] sa];
    destruct (try_to_lock w lockname pid false s') as [[[lb nb]|eb|] sb];
    simpl in T, P, P'; destruct T as [(Tc & Tt & Tz) T];
    destruct P as [_ P]; destruct P' as [_ P']; try contradiction.
  all: destruct (on_connect (net_at w (conns s)));
    try (destruct T; discriminate); try discriminate.
  all: unfold same_but_log; simpl.
  - injection T as -> ->. split; [auto|]. split; [reflexivity|].
    destruct P as [[-> ->]|[-> _]]; auto.
  - injection T as -> ->. split; [auto|]. split; [reflexivity|].
    destruct P as [[-> ->]|[-> _]]; auto.
  - destruct T as [T1 T2]. injection T1 as ->. injection T2 as -> ->.
    rewrite no_server_message_is_not_wrong_nonce.
    destruct (is_new_warning NO_SERVER_MESSAGE lw); simpl; auto.
  - injection T as ->.
    destruct eb; simpl; try contradiction; auto.
    destruct (contains WRONG_NONCE msg); simpl; auto.
    destruct (is_new_warning msg lw), (is_new_warning msg lw'); simpl; auto.
  - injection T as ->.
    destruct eb; simpl; try contradiction; auto.
    destruct (contains WRONG_NONCE msg); simpl; auto.
    destruct (is_new_warning msg lw), (is_new_warning msg lw'); simpl; auto.
Qed.

Lemma lock_loop_after_failure w fuel lockname pid sr deadline l n lw s r s1 :
  truthy l = false ->
  lock_attempt w lockname pid sr l n lw s = (Returns r, s1) ->
  truthy r.1.1 = false ->
  lock_loop w (S fuel) lockname pid sr deadline l n lw s
  = match deadline with
    | Some d =>
        if d <? now_at w (ticks s1) then
          (Raises (LockTimeout (LOCK_TIMED_OUT lockname)),
           State (conns s1) (S (ticks s1))
             (EvLog LWarning (LOCK_TIMED_OUT lockname) :: trace s1))
        else
          lock_loop w fuel lockname pid sr deadline r.1.1 r.1.2 r.2
            (State (conns s1) (S (ticks s1)) (EvSleep :: trace s1))
    | None =>
        lock_loop w fuel lockname pid sr deadline r.1.1 r.1.2 r.2
          (State (conns s1) (ticks s1) (EvSleep :: trace s1))
    end.
Proof.
  intros Hl Ha Hr. cbn [lock_loop]. rewrite Hl.
  unfold mbind at 1. unfold M_bind at 1. rewrite Ha. rewrite Hr.
  cbn [negb when]. unfold check_lock_deadline, mbind, M_bind, now.
  destruct deadline as [d|]; simpl; [|reflexivity].
  destruct (d <? now_at w (ticks s1)); reflexivity.
Qed.

Lemma lock_loop_either_way w lockname pid deadline :
  forall fuel lw lw' s s',
    same_but_log s s' ->
    let a := lock_loop w fuel lockname pid true deadline (ABool false) ANone
               lw s in
    let b := lock_loop w fuel lockname pid false deadline (ABool false) ANone
               lw' s' in
    a.1 = b.1 /\ same_but_log a.2 b.2.
Proof.
  induction fuel as [|fuel IH]; intros lw lw' s s' R; cbv zeta.
  - simpl. auto.
  - pose proof (lock_attempt_either_way w lockname pid lw lw' s s' R) as A.
    cbv zeta in A.
    destruct (lock_attempt w lockname pid true (ABool false) ANone lw s)
      as [[ra|ea|] sa] eqn:Ea;
      destruct (lock_attempt w lockname pid false (ABool false) ANone lw' s')
        as [[rb|eb|] sb] eqn:Eb;
      simpl in A; destruct A as [Rab A]; try contradiction.
    + destruct A as [Hab [Hf|Ht]].
      * assert (Hfb : rb.1 = (ABool false, ANone)) by congruence.
        destruct ra as [[la na] lwa], rb as [[lb nb] lwb]. simpl in Hf, Hfb.
        injection Hf as -> ->. injection Hfb as -> ->.
        rewrite (lock_loop_after_failure w fuel lockname pid true deadline
                   (ABool false) ANone lw s _ sa eq_refl Ea eq_refl).
        rewrite (lock_loop_after_failure w fuel lockname pid false deadline
                   (ABool false) ANone lw' s' _ sb eq_refl Eb eq_refl).
        destruct Rab as (Rc & Rt & Rz). simpl. rewrite <- Rt.
        destruct deadline as [d|].
        -- destruct (d <? now_at w (ticks sa)).
           ++ simpl. unfold same_but_log. simpl. rewrite Rc. auto.
           ++ apply IH. unfold same_but_log. simpl.
              rewrite !sleeps_cons. simpl. auto.
        -- apply IH. unfold same_but_log. simpl.
           rewrite !sleeps_cons. simpl. auto.
      * assert (Htb : truthy rb.1.1 = true) by (rewrite <- Hab; exact Ht).
        rewrite (lock_loop_acquired w fuel lockname pid true deadline
                   (ABool false) ANone lw s ra sa eq_refl Ea Ht).
        rewrite (lock_loop_acquired w fuel lockname pid false deadline
                   (ABool false) ANone lw' s' rb sb eq_refl Eb Htb).
        simpl. rewrite Hab. auto.
    + subst eb.
      rewrite (lock_loop_raised w fuel lockname pid true deadline
                 (ABool false) ANone lw s ea sa eq_refl Ea).
      rewrite (lock_loop_raised w fuel lockname pid false deadline
                 (ABool false) ANone lw' s' ea sb eq_refl Eb).
      simpl. auto.
Qed.

(** X19: in [lock] the flag [server_required] only changes what is
    logged. For any world, timeout and lock name the two values of the
    flag give the same result (the same triple, the same exception or
    the same endless retrying) after the same number of sockets, clock
    readings and sleeps. *)
Theorem server_required_only_changes_the_log w fuel lockname tmo s :
  let a := lock w fuel lockname tmo true s in
  let b := lock w fuel lockname tmo false s in
  a.1 = b.1 /\ same_but_log a.2 b.2.
Proof.
  cbv zeta. rewrite !lock_unfold.
  destruct (get_deadline w tmo s) as [[dl|e|] s1].
  - pose proof (lock_loop_either_way w lockname (getpid w) dl fuel None None
                  s1 s1 (conj eq_refl (conj eq_refl eq_refl))) as L.
    cbv zeta in L. destruct L as [L1 L2].
    destruct (lock_loop w fuel lockname (getpid w) true dl (ABool false)
                ANone None s1) as [[ra|ea|] sa];
      destruct (lock_loop w fuel lockname (getpid w) false dl (ABool false)
                  ANone None s1) as [[rb|eb|] sb];
      simpl in *; try discriminate; split; auto; congruence.
  - split; [reflexivity|]. repeat split.
  - split; [reflexivity|]. repeat split.
Qed.

(** ** A release that fails after the block completed *)

(** X18: when the managed block completes but the release then raises,
    [locked] raises that exception: the caller sees a failure although
    the block ran to its end. With a timeout this is what happens when
    the release finds the lock still held after the deadline. *)
Theorem locked_raises_release_failure_of_completed_block
    w fuel lockname tmo sr body s r s1 s2 e s3 :
  lock w fuel (resolve_lockname w lockname) tmo sr (at_lock s)
  = (Returns r, s1) ->
  body (at_body s1) = (Returns tt, s2) ->
  unlock w fuel (resolve_lockname w lockname) r.1.2 r.2 tmo sr (at_unlock s2)
  = (Raises e, s3) ->
  locked w fuel lockname tmo sr body s = (Raises e, s3).
Proof.
  intros Hl Hb Hu.
  rewrite (locked_acquired w _ _ _ _ _ _ _ _ Hl). cbv zeta.
  rewrite Hb. cbn [fst snd]. rewrite Hu. reflexivity.
Qed.

Lemma locked_raises_release_failure_of_completed_block_witness :
  (locked w_stuck 2 (Some "lock1") (TSeconds 0) true (mret tt) initial).1
  = Raises (NameError "warning_msg").
Proof.
  erewrite (locked_raises_release_failure_of_completed_block w_stuck 2
              (Some "lock1") (TSeconds 0) true (mret tt) initial).
  - reflexivity.
  - vm_compute. reflexivity.
  - reflexivity.
  - vm_compute. reflexivity.
Defined.

Lemma caller_id_is_file_name_and_line_witness :
  caller_id_of String.eqb (Some ["/srv/solidlibs/os/lock.py"])
    "/srv/solidlibs/python/internals.py"
    [("/usr/lib/python3/runpy.py", 87); ("/srv/app/jobs.py", 42);
     ("/srv/solidlibs/os/lock.py", 116);
     ("/srv/solidlibs/python/internals.py", 112)]
    initial
  = (Returns "jobs.py:42", initial).
Proof.
  exact (proj1 (caller_id_is_file_name_and_line String.eqb
                  (Some ["/srv/solidlibs/os/lock.py"])
                  "/srv/solidlibs/python/internals.py"
                  [("/usr/lib/python3/runpy.py", 87); ("/srv/app/jobs.py", 42);
                   ("/srv/solidlibs/os/lock.py", 116);
                   ("/srv/solidlibs/python/internals.py", 112)]
                  initial)).
Defined.
